(** * PoDoFo: PDF names (PdfName.cpp) and resource tables (PdfResources.cpp)

    A shallow embedding of the name escaping codec, of the [PdfName] value
    type and of the identifier allocator of [PdfResources], with the
    properties of the design document proved against it. *)

From Stdlib Require Import ZArith Ascii String.
From stdpp Require Import gmap strings list pretty.

Local Open Scope Z_scope.

(** ** Bytes

    [char] and [unsigned char] are modelled by [ascii] (eight bits); the
    arithmetic of the source is done on the unsigned value in [Z] and
    truncated back to eight bits where the source stores into an
    [unsigned char]. *)

Definition byte_val (c : ascii) : Z := Z.of_N (N_of_ascii c).

Definition to_uchar (z : Z) : ascii := ascii_of_N (Z.to_N (z mod 256)).

Definition NUL : ascii := "000"%char.
Definition HASH : ascii := "#"%char.

(** A [string_view]/[bufferview]/[charbuff] is a sequence of bytes. *)
Abbreviation bytes := (list ascii).

Definition sv (s : string) : bytes := list_ascii_of_string s.

(** ** Errors *)

Inductive PdfErrorCode := InvalidName | InvalidEnumValue.

(** The outcome of a call that may leave through [PODOFO_RAISE_ERROR]. *)
Inductive result (A : Type) :=
| Ok (a : A)
| Raise (e : PdfErrorCode).
Arguments Ok {A} a.
Arguments Raise {A} e.

(** ** The name codec: [escapeNameTo], [unescapeName], [hexchr] *)

(** A store through a [string::iterator]: defined only inside the buffer. *)
Definition put (dst : bytes) (it : nat) (c : ascii) : option bytes :=
  if decide (it < length dst)%nat then Some (<[it:=c]> dst) else None.

(** ["0123456789ABCDEF"[k]] *)
Definition hexdigits : bytes := sv "0123456789ABCDEF".

Definition hexdigit (k : Z) : ascii := default NUL (hexdigits !! Z.to_nat k).

(** [hexchr(ch, it)]: two stores, the iterator advanced by two. *)
Definition hexchr (ch : ascii) (it : nat) (dst : bytes) : option (nat * bytes) :=
  dst ← put dst it (hexdigit (byte_val ch / 16));
  dst ← put dst (S it) (hexdigit (byte_val ch mod 16));
  Some (S (S it), dst).

(** The body of the [#] branch of [unescapeName]: both digits are
    [unsigned char], so each subtraction and the final combination are
    truncated to eight bits. *)
Definition unhex (hi low : ascii) : ascii :=
  let hi := to_uchar (byte_val hi - (if byte_val hi <? 65 then 48 else 65 - 10)) in
  let low := to_uchar (byte_val low - (if byte_val low <? 65 then 48 else 65 - 10)) in
  to_uchar (Z.lor (Z.shiftl (byte_val hi) 4) (Z.land (byte_val low) 15)).

(** The loop of [unescapeName].  [incount] and [curr] are the two cursors
    of the source; every iteration consumes at least one byte, so
    [length view] iterations are enough.  [None]: a read outside the view,
    or the iterations used up with input left. *)
Fixpoint unescape_loop (fuel : nat) (view : bytes) (incount curr : nat)
    (ret : bytes) : option bytes :=
  if (incount <? length view)%nat then
    match fuel with
    | O => None
    | S fuel =>
      let incount := S incount in
      c ← view !! curr;
      if bool_decide (c = HASH) && (incount + 1 <? length view)%nat then
        let curr := S curr in
        hi ← view !! curr;
        let incount := S incount in
        let curr := S curr in
        low ← view !! curr;
        let incount := S incount in
        unescape_loop fuel view incount (S curr) (ret ++ [unhex hi low])
      else
        unescape_loop fuel view incount (S curr) (ret ++ [c])
    end
  else Some ret.

Definition unescapeName (view : bytes) : option bytes :=
  unescape_loop (length view) view 0 0 [].

(** [PdfTokenizer::IsRegular] and [PdfTokenizer::IsPrintable] belong to
    the tokenizer, which these files only call; the codec is verified for
    every tokenizer. *)
Class Tokenizer := {
  IsRegular : ascii → bool;
  IsPrintable : ascii → bool
}.

Section escape.

Context `{Tokenizer}.

(** The test shared by the two passes of [escapeNameTo]. *)
Definition verbatim (ch : ascii) : bool :=
  IsRegular ch && IsPrintable ch && negb (bool_decide (ch = HASH)).

(** First pass: the size of the result, or the error on a null byte. *)
Fixpoint escape_scan (view : bytes) (outchars : nat) : result nat :=
  match view with
  | [] => Ok outchars
  | ch :: view =>
    if bool_decide (ch = NUL) then Raise InvalidName
    else escape_scan view (outchars + (if verbatim ch then 1 else 3))%nat
  end.

(** Second pass: the stores through [bufIt]. *)
Fixpoint escape_fill (view : bytes) (bufIt : nat) (dst : bytes) : option bytes :=
  match view with
  | [] => Some dst
  | ch :: view =>
    if verbatim ch then
      dst ← put dst bufIt ch;
      escape_fill view (S bufIt) dst
    else
      dst ← put dst bufIt HASH;
      '(bufIt, dst) ← hexchr ch (S bufIt) dst;
      escape_fill view bufIt dst
  end.

(** [escapeNameTo(dst, view)]: the outcome together with the contents of
    [dst] afterwards.  [None]: a store outside the buffer. *)
Definition escapeNameTo (dst view : bytes) : option (result unit * bytes) :=
  match escape_scan view 0 with
  | Raise e => Some (Raise e, dst)
  | Ok outchars =>
    dst ← escape_fill view 0 (resize outchars NUL dst);
    Some (Ok (), dst)
  end.

End escape.

(** *** What the two loops compute

    The functions below are the closed forms of the loops above; the codec
    theorems go through them. *)

(** [unescapeName] by recursion on the input. *)
Fixpoint unescape_rec (view : bytes) : bytes :=
  match view with
  | [] => []
  | c :: rest =>
    match rest with
    | hi :: low :: rest' =>
      if bool_decide (c = HASH) then unhex hi low :: unescape_rec rest'
      else c :: unescape_rec rest
    | _ => c :: unescape_rec rest
    end
  end.

(** The scan positions of [unescapeName]: the offsets at which an
    iteration of its loop starts.  An iteration that starts on a [#] with
    two more bytes behind it consumes three bytes, any other consumes one,
    and the loop goes on with what is left. *)
Inductive scan_pos : bytes → nat → Prop :=
| scan_start view : scan_pos view 0
| scan_escape hi low rest i :
    scan_pos rest i → scan_pos (HASH :: hi :: low :: rest) (3 + i)
| scan_copy c rest i :
    ¬ (c = HASH ∧ (2 ≤ length rest)%nat) →
    scan_pos rest i → scan_pos (c :: rest) (1 + i).

Section escape_closed_form.

Context `{Tokenizer}.

(** The escaped form of one byte. *)
Definition escape_byte (ch : ascii) : bytes :=
  if verbatim ch then [ch]
  else [HASH; hexdigit (byte_val ch / 16); hexdigit (byte_val ch mod 16)].

Definition escaped (view : bytes) : bytes := view ≫= escape_byte.

End escape_closed_form.

Arguments escaped : simpl never.

(** ** [PdfName] *)

(** [PdfName::NameData] *)
Record NameData := {
  Chars : bytes;
  Utf8String : option bytes;
  IsUtf8Expanded : bool
}.

(** A name: the owned data ([nullptr] for the null name and for names made
    from string literals) and the view on its raw bytes. *)
Record PdfName := {
  m_data : option NameData;
  m_dataView : bytes
}.

(** [PdfName::PdfName()], also [PdfName::Null] *)
Definition PdfName_Null : PdfName := {| m_data := None; m_dataView := [] |}.

(** [PdfName::PdfName(charbuff&& buff)] *)
Definition PdfName_of_charbuff (buff : bytes) : PdfName :=
  {| m_data := Some {| Chars := buff; Utf8String := None; IsUtf8Expanded := false |};
     m_dataView := buff |}.

(** [PdfName::PdfName(const char* str, size_t length)], the constructor of
    the [_n] literals: only the view is set. *)
Definition PdfName_literal (str : bytes) : PdfName :=
  {| m_data := None; m_dataView := str |}.

(** [PdfName::FromRaw] *)
Definition FromRaw (rawcontent : bytes) : PdfName := PdfName_of_charbuff rawcontent.

(** [PdfName::FromEscaped] *)
Definition FromEscaped (view : bytes) : option PdfName := FromRaw <$> unescapeName view.

(** [PdfName::IsNull] *)
Definition IsNull (n : PdfName) : bool := bool_decide (length (m_dataView n) = 0%nat).

(** [PdfName::GetRawData] *)
Definition GetRawData (n : PdfName) : bytes := m_dataView n.

(** [PdfName::operator string_view]: the view on the raw bytes.  [None] is
    the view whose [data()] is null, the view that was never set: that of a
    name that owns no data and has no bytes, as a default-constructed name
    and a name made from empty text are.  A name that owns its bytes views
    them, a literal name views its literal. *)
Definition PdfName_string_view (n : PdfName) : option bytes :=
  match m_data n, m_dataView n with
  | None, [] => None
  | _, view => Some view
  end.

(** [std::string_view::compare]: the common prefix is compared byte by byte
    as [unsigned char], then the lengths. *)
Fixpoint sv_compare (a b : bytes) : comparison :=
  match a, b with
  | [], [] => Eq
  | [], _ :: _ => Lt
  | _ :: _, [] => Gt
  | x :: a, y :: b =>
    match byte_val x ?= byte_val y with
    | Eq => sv_compare a b
    | c => c
    end
  end.

Definition sv_eqb (a b : bytes) : bool := bool_decide (a = b).

Definition sv_ltb (a b : bytes) : bool :=
  match sv_compare a b with Lt => true | _ => false end.

(** [PdfName::operator==(const PdfName&)], [operator!=] and [operator<] *)
Definition PdfName_eq (lhs rhs : PdfName) : bool :=
  sv_eqb (m_dataView lhs) (m_dataView rhs).
Definition PdfName_ne (lhs rhs : PdfName) : bool :=
  negb (sv_eqb (m_dataView lhs) (m_dataView rhs)).
Definition PdfName_lt (lhs rhs : PdfName) : bool :=
  sv_ltb (m_dataView lhs) (m_dataView rhs).

(** The byte-wise order the design document speaks of: the first differing
    byte decides, a proper prefix comes first. *)
Inductive bytewise_lt : bytes → bytes → Prop :=
| bytewise_lt_nil y b : bytewise_lt [] (y :: b)
| bytewise_lt_head x y a b : byte_val x < byte_val y → bytewise_lt (x :: a) (y :: b)
| bytewise_lt_tail x a b : bytewise_lt a b → bytewise_lt (x :: a) (x :: b).

(** The charset codec of [PdfEncodingPrivate.h], which these files only
    call, is an interface as well: [CheckValidUTF8ToPdfDocEcondingChars]
    returns its result and its [isAsciiEqual] output,
    [ConvertPdfDocEncodingToUTF8] its [utf8str] and [isAsciiEqual] outputs. *)
Class CharsetCodec := {
  CheckValidUTF8ToPdfDocEcondingChars : bytes → bool * bool;
  ConvertUTF8ToPdfDocEncoding : bytes → bytes;
  ConvertPdfDocEncodingToUTF8 : bytes → bytes * bool
}.

Section name.

Context `{CharsetCodec}.

(** [PdfName::initFromUtf8String(const string_view&)], on a name that has
    just been default-constructed. *)
Definition initFromUtf8String (view : bytes) : result PdfName :=
  if bool_decide (length view = 0%nat) then Ok PdfName_Null
  else
    let '(valid, isAsciiEqual) := CheckValidUTF8ToPdfDocEcondingChars view in
    if negb valid then Raise InvalidName
    else
      let data :=
        if isAsciiEqual
        then {| Chars := view; Utf8String := None; IsUtf8Expanded := true |}
        else {| Chars := ConvertUTF8ToPdfDocEncoding view;
                Utf8String := Some view; IsUtf8Expanded := true |} in
      Ok {| m_data := Some data; m_dataView := Chars data |}.

(** [PdfName::PdfName(const string&)] *)
Definition PdfName_of_string (str : bytes) : result PdfName := initFromUtf8String str.

(** [PdfName::PdfName(const string_view&)]; [None] is the view whose
    [data()] is null. *)
Definition PdfName_of_string_view (view : option bytes) : result PdfName :=
  match view with
  | None => Raise InvalidName
  | Some view => initFromUtf8String view
  end.

(** [PdfName::expandUtf8String], on the owned data. *)
Definition expandUtf8String (d : NameData) : NameData :=
  if negb (IsUtf8Expanded d) then
    let '(utf8str, isAsciiEqual) := ConvertPdfDocEncodingToUTF8 (Chars d) in
    {| Chars := Chars d;
       Utf8String := if negb isAsciiEqual then Some utf8str else Utf8String d;
       IsUtf8Expanded := true |}
  else d.

(** [PdfName::GetString]: the text, and the name after the expansion that
    the call performs through its [const_cast]. *)
Definition GetString (n : PdfName) : bytes * PdfName :=
  match m_data n with
  | None => (m_dataView n, n)
  | Some d =>
    let d := expandUtf8String d in
    (match Utf8String d with None => Chars d | Some s => s end,
     {| m_data := Some d; m_dataView := m_dataView n |})
  end.

(** [PdfName::operator==(const string_view&)] and [operator!=]; the
    overload for [const string&] forwards to them. *)
Definition PdfName_eq_view (n : PdfName) (view : bytes) : bool :=
  sv_eqb (GetString n).1 view.
Definition PdfName_ne_view (n : PdfName) (view : bytes) : bool :=
  negb (sv_eqb (GetString n).1 view).

End name.

(** [PdfName::GetEscapedName] *)
Definition GetEscapedName `{Tokenizer} (n : PdfName) : option (result unit * bytes) :=
  if bool_decide (length (m_dataView n) = 0%nat) then Some (Ok (), [])
  else escapeNameTo [] (m_dataView n).

(** ** [PdfResources] *)

(** Modelled from the spec: the declaration of [enum class PdfResourceType]
    (PdfDeclarations.h) is the closed enumeration ExtGState, ColorSpace,
    Pattern, Shading, XObject, Font, Properties; a value of the type is its
    underlying integer, and the numbering from 1 is the one under which
    [(unsigned)type - 1] indexes the seven counters. *)
Definition PdfResourceType := Z.
Definition ExtGState : PdfResourceType := 1.
Definition ColorSpace : PdfResourceType := 2.
Definition Pattern : PdfResourceType := 3.
Definition Shading : PdfResourceType := 4.
Definition XObject : PdfResourceType := 5.
Definition Font : PdfResourceType := 6.
Definition Properties : PdfResourceType := 7.

Definition valid_type (type : PdfResourceType) : Prop :=
  type ∈ [ExtGState; ColorSpace; Pattern; Shading; XObject; Font; Properties].

(** [getResourceTypeName]; the cases are the seven enumerators. *)
Definition getResourceTypeName (type : PdfResourceType) : result PdfName :=
  match type with
  | 1 => Ok (PdfName_literal (sv "ExtGState"))
  | 2 => Ok (PdfName_literal (sv "ColorSpace"))
  | 3 => Ok (PdfName_literal (sv "Pattern"))
  | 4 => Ok (PdfName_literal (sv "Shading"))
  | 5 => Ok (PdfName_literal (sv "XObject"))
  | 6 => Ok (PdfName_literal (sv "Font"))
  | 7 => Ok (PdfName_literal (sv "Properties"))
  | _ => Raise InvalidEnumValue
  end.

(** [getResourceTypePrefix]; the cases are the seven enumerators. *)
Definition getResourceTypePrefix (type : PdfResourceType) : result bytes :=
  match type with
  | 1 => Ok (sv "ExtG")
  | 2 => Ok (sv "CS")
  | 3 => Ok (sv "Ptrn")
  | 4 => Ok (sv "Shd")
  | 5 => Ok (sv "XOb")
  | 6 => Ok (sv "Ft")
  | 7 => Ok (sv "Prop")
  | _ => Raise InvalidEnumValue
  end.

(** Modelled from the spec: the dictionary collaborator ([PdfObject],
    [PdfDictionary], PdfDictionary.h), with the contract has-key, add or
    replace, find, remove.  An object is a dictionary, whose keys are names
    compared by their raw bytes, or something else.  [FindKey] and
    [AddKeyIndirectSafe] go through indirect references; the table sees the
    object found, so a sub-dictionary is placed where the owning dictionary
    refers to it. *)
#[local] Unset Elimination Schemes.
Inductive PdfObject :=
| ObjDictionary (d : gmap bytes PdfObject)
| ObjArray (a : list PdfObject)
| ObjName (n : bytes)
| ObjReference (objnum : N).

#[local] Set Elimination Schemes.

Abbreviation PdfDictionary := (gmap bytes PdfObject).

(** [getProcSet] *)
Definition getProcSet : PdfObject :=
  ObjArray [ObjName (sv "PDF"); ObjName (sv "Text"); ObjName (sv "ImageB");
            ObjName (sv "ImageC"); ObjName (sv "ImageI")].

(** [std::to_string(unsigned)] *)
Definition to_string (currId : Z) : bytes := sv (pretty (Z.to_N currId)).

(** Modelled from the spec: the members of [PdfResources]
    (PdfResources.h), the dictionary of the element and the fixed-size array
    of counters, one per category; a counter has the type [unsigned] of
    [currId], which it is read into and assigned to. *)
Record PdfResources := {
  dictionary : PdfDictionary;
  m_currResourceIds : list Z
}.

(** The constructors: the counters are value-initialised,
    [m_currResourceIds{ }]. *)
Definition PdfResources_of_object (d : PdfDictionary) : PdfResources :=
  {| dictionary := d; m_currResourceIds := replicate 7 0 |}.

Definition PdfResources_of_canvas : PdfResources :=
  {| dictionary := <[sv "ProcSet" := getProcSet]> ∅;
     m_currResourceIds := replicate 7 0 |}.

(** [m_currResourceIds[(unsigned)type - 1]], read and pre-increment.  The
    increment of an [unsigned] wraps at [2^32].  The index is inside the
    array wherever the source reaches these lines, the type having passed
    [getResourceTypeName]. *)
Definition counter_index (type : PdfResourceType) : nat := Z.to_nat (type - 1).

Definition counter (type : PdfResourceType) (ids : list Z) : Z :=
  default 0 (ids !! counter_index type).

Definition counter_incr (type : PdfResourceType) (ids : list Z) : list Z :=
  <[counter_index type := (counter type ids + 1) mod 2 ^ 32]> ids.

(** [PdfResources::tryGetDictionary]: the sub-dictionary under [type]. *)
Definition tryGetDictionary (type : bytes) (r : PdfResources) : option PdfDictionary :=
  match dictionary r !! type with
  | Some (ObjDictionary d) => Some d
  | _ => None
  end.

(** The loop of [AddResource]: [dict] is the sub-dictionary, [ids] the
    counters.  [None]: the iterations are used up. *)
Fixpoint allocate_loop (fuel : nat) (dict : PdfDictionary) (prefix : bytes)
    (type : PdfResourceType) (ids : list Z) (currId : Z) : option (bytes * list Z) :=
  let currName := prefix ++ to_string currId in
  if bool_decide (is_Some (dict !! currName)) then
    match fuel with
    | O => None
    | S fuel =>
      let ids := counter_incr type ids in
      let currId := counter type ids in
      allocate_loop fuel dict prefix type ids currId
    end
  else Some (currName, ids).

(** The table with [d] as the dictionary object under the key [loc]. *)
Definition with_dictionary (loc : bytes) (d : PdfDictionary) (r : PdfResources)
    : PdfResources :=
  {| dictionary := <[loc := ObjDictionary d]> (dictionary r);
     m_currResourceIds := m_currResourceIds r |}.

Section resources.

Context `{CharsetCodec}.

(** [PdfResources::getOrCreateDictionary]: the reference it returns is the
    key the sub-dictionary is stored under together with its contents;
    the table afterwards comes with it.  [type] is a view, [None] the one
    whose [data()] is null.  [FindKey] looks the bytes of the view up, of
    which a null view has none; [AddKey] takes a [PdfName], which is made
    from the view [type] and is not made from a null one. *)
Definition getOrCreateDictionary (type : option bytes) (r : PdfResources)
    : result (bytes * PdfDictionary) * PdfResources :=
  match tryGetDictionary (default [] type) r with
  | Some d => (Ok (default [] type, d), r)
  | None =>
    match PdfName_of_string_view type with
    | Raise e => (Raise e, r)
    | Ok key => (Ok (m_dataView key, ∅), with_dictionary (m_dataView key) ∅ r)
    end
  end.

(** [PdfResources::AddResource(PdfResourceType, const PdfObject&)].
    [AddKeyIndirectSafe] associates the key with the object.  The loop is
    given one iteration more than the sub-dictionary has keys; [None]: it
    used them up. *)
Definition AddResource (type : PdfResourceType) (obj : PdfObject) (r : PdfResources)
    : option (result PdfName * PdfResources) :=
  match getResourceTypeName type with
  | Raise e => Some (Raise e, r)
  | Ok tname =>
    match getOrCreateDictionary (PdfName_string_view tname) r with
    | (Raise e, r) => Some (Raise e, r)
    | (Ok (loc, dict), r) =>
      match getResourceTypePrefix type with
      | Raise e => Some (Raise e, r)
      | Ok prefix =>
        let currId := counter type (m_currResourceIds r) in
        '(currName, ids) ←
          allocate_loop (S (size dict)) dict prefix type (m_currResourceIds r) currId;
        let r := {| dictionary := dictionary r; m_currResourceIds := ids |} in
        match PdfName_of_string currName with
        | Raise e => Some (Raise e, r)
        | Ok ret => Some (Ok ret, with_dictionary loc (<[m_dataView ret := obj]> dict) r)
        end
      end
    end
  end.

(** [PdfResources::AddResource(const PdfName&, const PdfName&, const PdfObject&)] *)
Definition AddResource_named (type key : PdfName) (obj : PdfObject) (r : PdfResources)
    : result unit * PdfResources :=
  match getOrCreateDictionary (PdfName_string_view type) r with
  | (Raise e, r) => (Raise e, r)
  | (Ok (loc, dict), r) => (Ok (), with_dictionary loc (<[m_dataView key := obj]> dict) r)
  end.

(** [PdfResources::AddResource(PdfResourceType, const PdfName&, const PdfObject&)] *)
Definition AddResource_keyed (type : PdfResourceType) (key : PdfName) (obj : PdfObject)
    (r : PdfResources) : result unit * PdfResources :=
  match getResourceTypeName type with
  | Raise e => (Raise e, r)
  | Ok tname => AddResource_named tname key obj r
  end.

(** A sequence of calls of [AddResource] on one category, one per object:
    every name returned, with the table the call was made on, and the table
    in the end.  [None]: a call that raises or does not return. *)
Fixpoint AddResource_calls (type : PdfResourceType) (objs : list PdfObject)
    (r : PdfResources) : option (list (PdfResources * PdfName) * PdfResources) :=
  match objs with
  | [] => Some ([], r)
  | obj :: objs =>
    match AddResource type obj r with
    | Some (Ok name, r') =>
      '(calls, r'') ← AddResource_calls type objs r';
      Some ((r, name) :: calls, r'')
    | _ => None
    end
  end.

End resources.

(** [PdfResources::RemoveResource(const string_view&, const string_view&)] *)
Definition RemoveResource_named (type key : bytes) (r : PdfResources) : PdfResources :=
  match tryGetDictionary type r with
  | None => r
  | Some dict => with_dictionary type (delete key dict) r
  end.

(** [PdfResources::RemoveResources(const string_view&)] *)
Definition RemoveResources_named (type : bytes) (r : PdfResources) : PdfResources :=
  {| dictionary := delete type (dictionary r);
     m_currResourceIds := m_currResourceIds r |}.

(** [PdfResources::RemoveResource(PdfResourceType, const string_view&)] *)
Definition RemoveResource (type : PdfResourceType) (key : bytes) (r : PdfResources)
    : result unit * PdfResources :=
  match getResourceTypeName type with
  | Raise e => (Raise e, r)
  | Ok tname => (Ok (), RemoveResource_named (m_dataView tname) key r)
  end.

(** [PdfResources::RemoveResources(PdfResourceType)] *)
Definition RemoveResources (type : PdfResourceType) (r : PdfResources)
    : result unit * PdfResources :=
  match getResourceTypeName type with
  | Raise e => (Raise e, r)
  | Ok tname => (Ok (), RemoveResources_named (m_dataView tname) r)
  end.

(** [PdfResources::getResource] *)
Definition getResource (type key : bytes) (r : PdfResources) : option PdfObject :=
  match tryGetDictionary type r with
  | None => None
  | Some dict => dict !! key
  end.

(** [PdfResources::GetResource(PdfResourceType, const string_view&)] *)
Definition GetResource (type : PdfResourceType) (key : bytes) (r : PdfResources)
    : result (option PdfObject) :=
  match getResourceTypeName type with
  | Raise e => Raise e
  | Ok tname => Ok (getResource (m_dataView tname) key r)
  end.

(** *** Notions the statements use *)

(** The representation invariant of the counters: seven slots, each an
    [unsigned] value. *)
Definition counters_wf (ids : list Z) : Prop :=
  length ids = 7%nat ∧ Forall (λ v, 0 ≤ v < 2 ^ 32) ids.

(** The key of a category in the owning dictionary. *)
Definition type_name (type : PdfResourceType) : bytes :=
  match getResourceTypeName type with
  | Ok n => m_dataView n
  | Raise _ => []
  end.

(** The sub-dictionary of a category: empty while the category has none. *)
Definition subdictionary (type : PdfResourceType) (r : PdfResources) : PdfDictionary :=
  default ∅ (tryGetDictionary (type_name type) r).

(** The identifier of a category with number [k]. *)
Definition candidate (type : PdfResourceType) (k : Z) : bytes :=
  match getResourceTypePrefix type with
  | Ok prefix => prefix ++ to_string k
  | Raise _ => []
  end.

(** The value of a counter after [j] increments. *)
Definition advance (c : Z) (j : nat) : Z := (c + Z.of_nat j) mod 2 ^ 32.

(** A decimal digit. *)
Definition is_digit (c : ascii) : Prop := 48 ≤ byte_val c ≤ 57.

(** The name the constructor from text makes of ASCII text: the text is
    its own raw form and nothing is cached. *)
Definition ascii_name (view : bytes) : PdfName :=
  {| m_data := Some {| Chars := view; Utf8String := None; IsUtf8Expanded := true |};
     m_dataView := view |}.

(** ** Instances used by the examples *)

(** Modelled from the spec: [PdfTokenizer::IsRegular] and
    [PdfTokenizer::IsPrintable] (PdfTokenizer.cpp), which these files only
    call: a regular character is neither white space nor a delimiter of the
    document syntax, a printable one is a visible ASCII character. *)
Definition Tokenizer_IsWhitespace (ch : ascii) : bool :=
  bool_decide (byte_val ch ∈ [0; 9; 10; 12; 13; 32]).

Definition Tokenizer_IsDelimiter (ch : ascii) : bool :=
  bool_decide (ch ∈ sv "()<>[]{}/%").

Definition Tokenizer_IsRegular (ch : ascii) : bool :=
  negb (Tokenizer_IsWhitespace ch) && negb (Tokenizer_IsDelimiter ch).

Definition Tokenizer_IsPrintable (ch : ascii) : bool :=
  (32 <? byte_val ch) && (byte_val ch <? 125).

(** Printable 7-bit ASCII. *)
Definition ascii_printable (ch : ascii) : bool :=
  (32 <=? byte_val ch) && (byte_val ch <=? 126).

(** Modelled from the spec: the CharsetCodec (PdfEncodingPrivate.h), on the
    part of the legacy charset that the examples use: printable ASCII, which
    is encoded by itself, and the characters U+00A1 to U+00FF, whose two
    UTF-8 bytes are encoded by the one byte of the code point.  [None]: a
    character outside this part. *)
Fixpoint Latin_encode (text : bytes) : option bytes :=
  match text with
  | [] => Some []
  | c :: rest =>
    if ascii_printable c then (c ::.) <$> Latin_encode rest
    else
      match rest with
      | c2 :: rest' =>
        let cp := Z.lor (Z.shiftl (Z.land (byte_val c) 31) 6) (Z.land (byte_val c2) 63) in
        if (194 <=? byte_val c) && (byte_val c <=? 195)
           && (128 <=? byte_val c2) && (byte_val c2 <=? 191) && (161 <=? cp)
        then (to_uchar cp ::.) <$> Latin_encode rest'
        else None
      | [] => None
      end
  end.

Definition Latin_decode_byte (c : ascii) : bytes :=
  if byte_val c <? 128 then [c]
  else [to_uchar (Z.lor 192 (Z.shiftr (byte_val c) 6));
        to_uchar (Z.lor 128 (Z.land (byte_val c) 63))].

Definition Latin_Check (view : bytes) : bool * bool :=
  match Latin_encode view with
  | Some _ => (true, forallb ascii_printable view)
  | None => (false, false)
  end.

Definition Latin_Convert (view : bytes) : bytes := default [] (Latin_encode view).

Definition Latin_Expand (chars : bytes) : bytes * bool :=
  (chars ≫= Latin_decode_byte, forallb (λ c, byte_val c <? 128) chars).


(** A table with the key "Ft3" put into the Font category by hand and the
    Font counter at 3. *)
Definition Ft3_table : PdfResources :=
  {| dictionary := {[ sv "Font" := ObjDictionary {[ sv "Ft3" := ObjReference 1 ]} ]};
     m_currResourceIds := [0; 0; 0; 0; 0; 3; 0] |}.

Definition pdf_tokenizer : Tokenizer :=
  {| IsRegular := Tokenizer_IsRegular; IsPrintable := Tokenizer_IsPrintable |}.

Definition Latin_codec : CharsetCodec :=
  {| CheckValidUTF8ToPdfDocEcondingChars := Latin_Check;
     ConvertUTF8ToPdfDocEncoding := Latin_Convert;
     ConvertPdfDocEncodingToUTF8 := Latin_Expand |}.

(** The UTF-8 text of U+00E9, and the name the constructor from text makes
    of it: one raw byte, the text cached. *)
Definition e_acute : bytes := ["195"; "169"]%char.

Definition e_acute_name : PdfName :=
  {| m_data := Some {| Chars := ["233"]%char; Utf8String := Some e_acute;
                       IsUtf8Expanded := true |};
     m_dataView := ["233"]%char |}.

(** A byte sequence with a null byte in it. *)
Definition null_view : bytes := ["a"; NUL; "b"]%char.

(** ** Further functions of the two files *)

(** Modelled from the spec: the output device ([OutputStream],
    OutputDevice.h) is the sequence of bytes written to it so far; a write
    appends. *)
Definition device_write (device data : bytes) : bytes := device ++ data.

(** [PdfName::Write]: the outcome, the device and the scratch buffer
    afterwards. *)
Definition Write `{Tokenizer} (device buffer : bytes) (n : PdfName)
    : option (result unit * bytes * bytes) :=
  let device := device_write device ["/"%char] in
  if bool_decide (length (m_dataView n) ≠ 0%nat) then
    '(outcome, buffer) ← escapeNameTo buffer (m_dataView n);
    match outcome with
    | Raise e => Some (Raise e, device, buffer)
    | Ok _ => Some (Ok (), device_write device buffer, buffer)
    end
  else Some (Ok (), device, buffer).

(** The hexadecimal digits in lower case, which [unescapeName] takes as
    well. *)
Definition hexdigit_lower (k : Z) : ascii :=
  default NUL (sv "0123456789abcdef" !! Z.to_nat k).

(** The bytes [escapeNameTo] escapes. *)
Definition needs_escape `{Tokenizer} (ch : ascii) : bool := negb (verbatim ch).

(** A letter of the ASCII alphabet. *)
Definition is_letter (c : ascii) : Prop :=
  65 ≤ byte_val c ≤ 90 ∨ 97 ≤ byte_val c ≤ 122.

(** A table whose Font entry is a name, not a dictionary. *)
Definition stray_table : PdfResources :=
  {| dictionary := {[ sv "Font" := ObjName (sv "Helvetica") ]};
     m_currResourceIds := replicate 7 0 |}.

(** * Properties *)

(** ** The codec *)

(** One iteration of the loop of [unescapeName] on a [#] that has two more
    bytes after it: the three bytes are consumed, one byte is produced. *)
Lemma unescape_loop_escape fuel pre hi low rest ret :
  unescape_loop (S fuel) (pre ++ HASH :: hi :: low :: rest) (length pre) (length pre) ret
  = unescape_loop fuel (pre ++ HASH :: hi :: low :: rest)
      (3 + length pre) (3 + length pre) (ret ++ [unhex hi low]).
Proof.
  cbn [unescape_loop].
  assert ((length pre <? length (pre ++ HASH :: hi :: low :: rest))%nat = true) as ->.
  { apply Nat.ltb_lt. rewrite length_app. simpl. lia. }
  rewrite (list_lookup_middle pre _ HASH (length pre) eq_refl). cbn [mbind option_bind].
  assert ((S (length pre) + 1 <? length (pre ++ HASH :: hi :: low :: rest))%nat = true) as ->.
  { apply Nat.ltb_lt. rewrite length_app. simpl. lia. }
  rewrite bool_decide_true by done. cbn [andb].
  assert ((pre ++ HASH :: hi :: low :: rest) !! S (length pre) = Some hi) as ->.
  { rewrite lookup_app_r by lia.
    by replace (S (length pre) - length pre)%nat with 1%nat by lia. }
  assert ((pre ++ HASH :: hi :: low :: rest) !! S (S (length pre)) = Some low) as ->.
  { rewrite lookup_app_r by lia.
    by replace (S (S (length pre)) - length pre)%nat with 2%nat by lia. }
  done.
Qed.

(** One iteration on any other byte, a [#] too near the end included: the
    byte is copied. *)
Lemma unescape_loop_copy fuel pre c rest ret :
  ¬ (c = HASH ∧ (2 ≤ length rest)%nat) →
  unescape_loop (S fuel) (pre ++ c :: rest) (length pre) (length pre) ret
  = unescape_loop fuel (pre ++ c :: rest) (1 + length pre) (1 + length pre) (ret ++ [c]).
Proof.
  intros Hno. cbn [unescape_loop].
  assert ((length pre <? length (pre ++ c :: rest))%nat = true) as ->.
  { apply Nat.ltb_lt. rewrite length_app. simpl. lia. }
  rewrite (list_lookup_middle pre rest c (length pre) eq_refl). cbn [mbind option_bind].
  assert (bool_decide (c = HASH) && (S (length pre) + 1 <? length (pre ++ c :: rest))%nat
          = false) as ->; [|done].
  apply andb_false_iff. destruct (decide (c = HASH)) as [Hc|Hc].
  - right. apply Nat.ltb_ge. rewrite length_app. simpl.
    assert (¬ (2 ≤ length rest)%nat) by tauto. lia.
  - left. by apply bool_decide_eq_false.
Qed.

Lemma unescape_loop_end fuel view ret :
  unescape_loop fuel view (length view) (length view) ret = Some ret.
Proof. destruct fuel; simpl; by rewrite Nat.ltb_irrefl. Qed.

Lemma unescape_rec_escape hi low rest :
  unescape_rec (HASH :: hi :: low :: rest) = unhex hi low :: unescape_rec rest.
Proof. done. Qed.

Lemma unescape_rec_no_escape c rest :
  ¬ (c = HASH ∧ (2 ≤ length rest)%nat) →
  unescape_rec (c :: rest) = c :: unescape_rec rest.
Proof.
  intros Hno. destruct rest as [|hi [|low rest]]; simpl; try done.
  rewrite bool_decide_false; [done|]. intros ->. apply Hno. simpl. split; [done|lia].
Qed.

(** The loop, started anywhere with enough iterations left, appends to its
    output what the recursion on the rest of the input describes. *)
Lemma unescape_loop_rec fuel : ∀ pre l ret,
  (length l ≤ fuel)%nat →
  unescape_loop fuel (pre ++ l) (length pre) (length pre) ret
  = Some (ret ++ unescape_rec l).
Proof.
  induction fuel as [|fuel IH]; intros pre l ret Hlen.
  - destruct l; [|simpl in Hlen; lia].
    rewrite app_nil_r, unescape_loop_end. by rewrite app_nil_r.
  - destruct l as [|c rest].
    { rewrite app_nil_r, unescape_loop_end. by rewrite app_nil_r. }
    simpl in Hlen.
    destruct (decide (c = HASH ∧ (2 ≤ length rest)%nat)) as [[-> Hrest]|Hno].
    + destruct rest as [|hi [|low rest]]; try (simpl in Hrest; lia).
      rewrite unescape_loop_escape, unescape_rec_escape.
      replace (pre ++ HASH :: hi :: low :: rest) with ((pre ++ [HASH; hi; low]) ++ rest)
        by (by rewrite <-app_assoc).
      replace (3 + length pre)%nat with (length (pre ++ [HASH; hi; low]))
        by (rewrite length_app; simpl; lia).
      rewrite IH by (simpl in Hlen; lia). by rewrite <-app_assoc.
    + rewrite unescape_loop_copy, unescape_rec_no_escape by done.
      replace (pre ++ c :: rest) with ((pre ++ [c]) ++ rest) by (by rewrite <-app_assoc).
      replace (1 + length pre)%nat with (length (pre ++ [c]))
        by (rewrite length_app; simpl; lia).
      rewrite IH by lia. by rewrite <-app_assoc.
Qed.

(** [unescapeName] always returns, and returns what the recursion on the
    input describes. *)
Lemma unescapeName_rec view : unescapeName view = Some (unescape_rec view).
Proof. apply (unescape_loop_rec (length view) [] view []). done. Qed.

(** The scan positions are positions of the loop: started on [view], after
    some iterations its two cursors stand at the position, and what it has
    produced is the decoding of the bytes before. *)
Lemma unescape_loop_scan_pos view i :
  scan_pos view i →
  ∃ n, ∀ fuel pre ret,
    unescape_loop (n + fuel) (pre ++ view) (length pre) (length pre) ret
    = unescape_loop fuel (pre ++ view) (length pre + i) (length pre + i)
        (ret ++ unescape_rec (take i view)).
Proof.
  induction 1 as [view|hi low rest i Hpos [n IH]|c rest i Hno Hpos [n IH]].
  - exists 0%nat. intros fuel pre ret.
    by rewrite take_0, app_nil_r, Nat.add_0_r.
  - exists (S n). intros fuel pre ret.
    cbn [Nat.add take]. rewrite unescape_loop_escape.
    replace (pre ++ HASH :: hi :: low :: rest) with ((pre ++ [HASH; hi; low]) ++ rest)
      by (by rewrite <-app_assoc).
    replace (3 + length pre)%nat with (length (pre ++ [HASH; hi; low]))
      by (rewrite length_app; simpl; lia).
    rewrite IH.
    replace (length (pre ++ [HASH; hi; low]) + i)%nat with (length pre + S (S (S i)))%nat
      by (rewrite length_app; simpl; lia).
    f_equal. by rewrite <-app_assoc.
  - exists (S n). intros fuel pre ret.
    cbn [Nat.add take]. rewrite unescape_loop_copy by done.
    replace (pre ++ c :: rest) with ((pre ++ [c]) ++ rest) by (by rewrite <-app_assoc).
    replace (1 + length pre)%nat with (length (pre ++ [c]))
      by (rewrite length_app; simpl; lia).
    rewrite IH.
    replace (length (pre ++ [c]) + i)%nat with (length pre + S i)%nat
      by (rewrite length_app; simpl; lia).
    f_equal. rewrite <-app_assoc. f_equal.
    rewrite unescape_rec_no_escape; [done|].
    intros [-> Hlen]. apply Hno. split; [done|].
    rewrite length_take in Hlen. lia.
Qed.

Lemma unescape_rec_copy c rest :
  c ≠ HASH → unescape_rec (c :: rest) = c :: unescape_rec rest.
Proof.
  intros Hc. destruct rest as [|hi [|low rest]]; simpl; try done.
  by rewrite bool_decide_false.
Qed.

(** Decoding the two digits [hexchr] writes gives the byte back. *)
Lemma unhex_hexchr ch :
  unhex (hexdigit (byte_val ch / 16)) (hexdigit (byte_val ch mod 16)) = ch.
Proof. by destruct ch as [[] [] [] [] [] [] [] []]; vm_compute. Qed.

Lemma put_middle pre o old c :
  put (pre ++ o :: old) (length pre) c = Some ((pre ++ [c]) ++ old).
Proof.
  unfold put. rewrite decide_True by (rewrite length_app; simpl; lia).
  f_equal. rewrite <-app_assoc. simpl.
  rewrite <-(Nat.add_0_r (length pre)). by rewrite insert_app_r.
Qed.

Section codec.

Context `{Tokenizer}.

Lemma escaped_cons ch view : escaped (ch :: view) = escape_byte ch ++ escaped view.
Proof. done. Qed.

Lemma length_escape_byte ch :
  length (escape_byte ch) = if verbatim ch then 1%nat else 3%nat.
Proof. unfold escape_byte. by destruct (verbatim ch). Qed.

(** The first pass stops at a null byte. *)
Lemma escape_scan_null view : ∀ outchars,
  NUL ∈ view → escape_scan view outchars = Raise InvalidName.
Proof.
  induction view as [|ch view IH]; intros outchars Hin.
  - by apply not_elem_of_nil in Hin.
  - simpl. case_bool_decide as Hch; [done|].
    apply elem_of_cons in Hin as [Heq|Hin]; [congruence|]. by apply IH.
Qed.

(** Without one it returns the size of the escaped form. *)
Lemma escape_scan_length view : ∀ outchars,
  NUL ∉ view → escape_scan view outchars = Ok (outchars + length (escaped view))%nat.
Proof.
  induction view as [|ch view IH]; intros outchars Hin.
  - simpl. f_equal. lia.
  - apply not_elem_of_cons in Hin as [Hch Hin].
    rewrite escaped_cons, length_app, length_escape_byte. simpl.
    rewrite bool_decide_false by done. rewrite IH by done. f_equal. lia.
Qed.

(** The second pass overwrites the buffer from [bufIt] on with the escaped
    form, and never stores outside a buffer that has room for it. *)
Lemma escape_fill_spec view : ∀ pre old,
  (length (escaped view) ≤ length old)%nat →
  escape_fill view (length pre) (pre ++ old)
  = Some (pre ++ escaped view ++ drop (length (escaped view)) old).
Proof.
  induction view as [|ch view IH]; intros pre old Hlen.
  - done.
  - rewrite escaped_cons, length_app, length_escape_byte in Hlen.
    rewrite escaped_cons. unfold escape_byte. simpl.
    destruct (verbatim ch).
    + destruct old as [|o old]; [simpl in Hlen; lia|].
      rewrite put_middle. cbn [mbind option_bind].
      replace (S (length pre)) with (length (pre ++ [ch])) by (rewrite length_app; simpl; lia).
      rewrite IH by (simpl in Hlen; lia).
      by rewrite <-app_assoc.
    + destruct old as [|o1 [|o2 [|o3 old]]]; try (simpl in Hlen; lia).
      rewrite put_middle. cbn [mbind option_bind]. unfold hexchr.
      replace (S (length pre)) with (length (pre ++ [HASH]))
        by (rewrite length_app; simpl; lia).
      rewrite put_middle. cbn [mbind option_bind].
      replace (S (length (pre ++ [HASH])))
        with (length ((pre ++ [HASH]) ++ [hexdigit (byte_val ch / 16)]))
        by (rewrite !length_app; simpl; lia).
      rewrite put_middle. cbn [mbind option_bind].
      set (pre' := ((pre ++ [HASH]) ++ [hexdigit (byte_val ch / 16)])
                   ++ [hexdigit (byte_val ch mod 16)]).
      replace (S (length ((pre ++ [HASH]) ++ [hexdigit (byte_val ch / 16)])))
        with (length pre') by (unfold pre'; rewrite !length_app; simpl; lia).
      rewrite IH by (simpl in Hlen; lia).
      unfold pre'. by rewrite <-!app_assoc.
Qed.

Lemma escapeNameTo_escaped dst view :
  NUL ∉ view → escapeNameTo dst view = Some (Ok (), escaped view).
Proof.
  intros Hnul. unfold escapeNameTo. rewrite escape_scan_length by done. simpl.
  pose proof (escape_fill_spec view [] (resize (length (escaped view)) NUL dst)) as Hfill.
  simpl in Hfill. rewrite Hfill by (by rewrite length_resize).
  rewrite drop_ge by (by rewrite length_resize). by rewrite app_nil_r.
Qed.

Lemma unescape_rec_escaped view : unescape_rec (escaped view) = view.
Proof.
  induction view as [|ch view IH]; [done|].
  rewrite escaped_cons. unfold escape_byte, verbatim.
  destruct (IsRegular ch && IsPrintable ch && negb (bool_decide (ch = HASH))) eqn:Hv.
  - cbn [app]. rewrite unescape_rec_copy, IH; [done|].
    apply andb_prop in Hv as [_ Hv]. apply negb_true_iff in Hv.
    by apply bool_decide_eq_false in Hv.
  - cbn [app]. by rewrite unescape_rec_escape, unhex_hexchr, IH.
Qed.

(** C1: for every byte sequence without a null byte, [escapeNameTo]
    succeeds and [unescapeName] of its output is the sequence again:
    Unescape(Escape(bytes)) = bytes. *)
Theorem escape_unescape_roundtrip (dst view : bytes) :
  NUL ∉ view →
  ∃ lexical,
    escapeNameTo dst view = Some (Ok (), lexical) ∧
    unescapeName lexical = Some view.
Proof.
  intros Hnul. exists (escaped view). split.
  - by apply escapeNameTo_escaped.
  - by rewrite unescapeName_rec, unescape_rec_escaped.
Qed.

(** C4: an input with a null byte makes [escapeNameTo] raise InvalidName;
    the first pass alone decides it, so the destination is as it was; and
    on an input without null byte the size that pass returns is the length
    of what the second pass then writes. *)
Theorem escape_null_rejected (dst view : bytes) :
  NUL ∈ view →
  escape_scan view 0 = Raise InvalidName ∧
  escapeNameTo dst view = Some (Raise InvalidName, dst) ∧
  ∀ view', NUL ∉ view' →
    ∃ out, escape_scan view' 0 = Ok (length out) ∧
           escapeNameTo dst view' = Some (Ok (), out).
Proof.
  intros Hnul. pose proof (escape_scan_null view 0%nat Hnul) as Hscan.
  split; [done|]. split.
  - unfold escapeNameTo. by rewrite Hscan.
  - intros view' Hnul'. exists (escaped view'). split.
    + by rewrite escape_scan_length.
    + by apply escapeNameTo_escaped.
Qed.

(** Writing a name and reading it back: the name read from the escaped
    form of a name without null byte has the raw bytes of that name. *)
Lemma FromEscaped_GetEscapedName (n : PdfName) :
  NUL ∉ m_dataView n →
  ∃ lexical,
    GetEscapedName n = Some (Ok (), lexical) ∧
    FromEscaped lexical = Some (FromRaw (m_dataView n)).
Proof.
  intros Hnul. unfold GetEscapedName, FromEscaped. case_bool_decide as Hlen.
  - exists []. split; [done|].
    apply length_zero_iff_nil in Hlen. by rewrite Hlen.
  - exists (escaped (m_dataView n)). rewrite escapeNameTo_escaped by done.
    split; [done|]. by rewrite unescapeName_rec, unescape_rec_escaped.
Qed.

End codec.





(** ** Names *)

Lemma byte_val_inj x y : byte_val x = byte_val y → x = y.
Proof.
  unfold byte_val. intros H. apply N2Z.inj in H.
  rewrite <-(ascii_N_embedding x), <-(ascii_N_embedding y). by rewrite H.
Qed.

Lemma sv_compare_refl a : sv_compare a a = Eq.
Proof. induction a as [|x a IH]; simpl; [done|]. by rewrite Z.compare_refl. Qed.

(** [string_view]'s [operator<] is the byte-wise order. *)
Lemma sv_ltb_bytewise a : ∀ b, sv_ltb a b = true ↔ bytewise_lt a b.
Proof.
  unfold sv_ltb. induction a as [|x a IH]; intros [|y b]; simpl.
  - split; [done|]. inversion 1.
  - split; [constructor|done].
  - split; [done|]. inversion 1.
  - destruct (Z.compare_spec (byte_val x) (byte_val y)) as [Heq|Hlt|Hgt].
    + apply byte_val_inj in Heq as ->. rewrite IH. split.
      * by constructor.
      * inversion 1; subst; [lia|done].
    + split; [by constructor|done].
    + split; [done|]. inversion 1; subst; lia.
Qed.

Lemma PdfName_eq_raw x y : PdfName_eq x y = true ↔ m_dataView x = m_dataView y.
Proof. unfold PdfName_eq, sv_eqb. by rewrite bool_decide_eq_true. Qed.

Lemma PdfName_lt_raw x y :
  PdfName_lt x y = true ↔ bytewise_lt (m_dataView x) (m_dataView y).
Proof. apply sv_ltb_bytewise. Qed.

(** C3: names with equal raw bytes are equal for [operator==] and neither
    is below the other for [operator<], whatever their owned data and
    UTF-8 cache are; equality is equality of the raw bytes and the order
    is the byte-wise order of the raw bytes. *)
Theorem name_compare_raw_bytes (a b : PdfName) :
  m_dataView a = m_dataView b →
  PdfName_eq a b = true ∧ PdfName_ne a b = false ∧
  PdfName_lt a b = false ∧ PdfName_lt b a = false ∧
  (∀ x y, PdfName_eq x y = true ↔ m_dataView x = m_dataView y) ∧
  (∀ x y, PdfName_lt x y = true ↔ bytewise_lt (m_dataView x) (m_dataView y)).
Proof.
  intros Hraw.
  assert (PdfName_eq a b = true) as Heq by by apply PdfName_eq_raw.
  split; [done|]. split.
  { unfold PdfName_ne. unfold PdfName_eq in Heq. by rewrite Heq. }
  unfold PdfName_lt, sv_ltb. rewrite Hraw, sv_compare_refl.
  repeat split; try done; try apply PdfName_eq_raw; apply PdfName_lt_raw.
Qed.

Section name_properties.

Context `{CharsetCodec}.

(** What the constructor from UTF-8 text builds. *)
Lemma PdfName_of_string_Ok text n :
  PdfName_of_string text = Ok n →
  (text = [] ∧ n = PdfName_Null) ∨
  (text ≠ [] ∧ CheckValidUTF8ToPdfDocEcondingChars text = (true, true) ∧
   n = {| m_data := Some {| Chars := text; Utf8String := None; IsUtf8Expanded := true |};
          m_dataView := text |}) ∨
  (text ≠ [] ∧ CheckValidUTF8ToPdfDocEcondingChars text = (true, false) ∧
   n = {| m_data := Some {| Chars := ConvertUTF8ToPdfDocEncoding text;
                            Utf8String := Some text; IsUtf8Expanded := true |};
          m_dataView := ConvertUTF8ToPdfDocEncoding text |}).
Proof.
  unfold PdfName_of_string, initFromUtf8String.
  case_bool_decide as Hlen.
  - intros [= <-]. left. split; [|done]. by apply length_zero_iff_nil.
  - assert (text ≠ []) by (by intros ->).
    destruct (CheckValidUTF8ToPdfDocEcondingChars text) as [[] []]; simpl;
      intros [= <-]; auto.
Qed.

(** A name made from raw bytes and one made from UTF-8 text that encodes
    to these bytes are equal, although only the second has the text
    cached. *)
Lemma name_from_raw_eq_from_utf8 text n :
  PdfName_of_string text = Ok n → m_dataView n ≠ text →
  PdfName_eq (FromRaw (ConvertUTF8ToPdfDocEncoding text)) n = true ∧
  (m_data (FromRaw (ConvertUTF8ToPdfDocEncoding text)) ≫= Utf8String) = None ∧
  (m_data n ≫= Utf8String) = Some text.
Proof.
  intros Hn Hraw.
  apply PdfName_of_string_Ok in Hn as [[-> ->]|[(_ & _ & ->)|(_ & _ & ->)]];
    try done.
  split; [by apply PdfName_eq_raw|done].
Qed.

(** What [GetString] does to a name made from raw bytes: the first call
    decodes them and keeps the text where it is not the bytes themselves. *)
Lemma GetString_FromRaw chars utf8 isAsciiEqual :
  ConvertPdfDocEncodingToUTF8 chars = (utf8, isAsciiEqual) →
  GetString (FromRaw chars)
  = (if isAsciiEqual then chars else utf8,
     {| m_data := Some {| Chars := chars;
                          Utf8String := if isAsciiEqual then None else Some utf8;
                          IsUtf8Expanded := true |};
        m_dataView := chars |}).
Proof.
  intros Hconv. unfold GetString, FromRaw, PdfName_of_charbuff, expandUtf8String.
  cbn [m_data m_dataView IsUtf8Expanded Chars Utf8String negb].
  rewrite Hconv. by destruct isAsciiEqual.
Qed.

(** C9: [operator==] against a string or string view compares the text
    [GetString] returns, after the expansion that the call performs, and
    not the raw bytes.  A name made from UTF-8 text whose raw bytes are not
    that text (a name that is not ASCII-equal) is equal to the text and is
    not equal to its raw bytes.  So is a name made from raw bytes, which the
    first comparison has to expand: it is equal to the text the decoder
    gives for its bytes and to no other view, hence not to the bytes where
    they are not that text, and it holds the text from then on; a raw name
    the decoder finds ASCII-equal is equal to its bytes.  Where the decoder
    gives back the text a name was made from, the name made from the raw
    bytes of that name is, once expanded, that name. *)
Theorem name_eq_view_text (text : bytes) (n : PdfName) :
  PdfName_of_string text = Ok n → m_dataView n ≠ text →
  PdfName_eq_view n text = true ∧
  PdfName_eq_view n (m_dataView n) = false ∧
  (∀ chars utf8,
     ConvertPdfDocEncodingToUTF8 chars = (utf8, false) →
     PdfName_eq_view (FromRaw chars) utf8 = true ∧
     (chars ≠ utf8 → PdfName_eq_view (FromRaw chars) chars = false) ∧
     GetString (FromRaw chars)
     = (utf8, {| m_data := Some {| Chars := chars; Utf8String := Some utf8;
                                   IsUtf8Expanded := true |};
                 m_dataView := chars |}) ∧
     PdfName_eq_view (GetString (FromRaw chars)).2 utf8 = true) ∧
  (∀ chars utf8 isAsciiEqual view,
     ConvertPdfDocEncodingToUTF8 chars = (utf8, isAsciiEqual) →
     PdfName_eq_view (FromRaw chars) view = true
     ↔ view = if isAsciiEqual then chars else utf8) ∧
  (ConvertPdfDocEncodingToUTF8 (m_dataView n) = (text, false) →
   GetString (FromRaw (m_dataView n)) = (text, n) ∧
   PdfName_eq_view (FromRaw (m_dataView n)) text = true ∧
   PdfName_eq_view (FromRaw (m_dataView n)) (m_dataView n) = false) ∧
  (∀ m view, PdfName_eq_view m view = true ↔ (GetString m).1 = view).
Proof.
  intros Hn Hraw.
  assert (∀ m view, PdfName_eq_view m view = true ↔ (GetString m).1 = view) as Hview.
  { intros m view. unfold PdfName_eq_view, sv_eqb.
    by rewrite bool_decide_eq_true. }
  assert (∀ m view, (GetString m).1 ≠ view → PdfName_eq_view m view = false) as Hne.
  { intros m view Hm. apply not_true_is_false. by rewrite Hview. }
  assert (∀ chars utf8,
            ConvertPdfDocEncodingToUTF8 chars = (utf8, false) →
            PdfName_eq_view (FromRaw chars) utf8 = true ∧
            (chars ≠ utf8 → PdfName_eq_view (FromRaw chars) chars = false)) as Hlazy.
  { intros chars utf8 Hconv. pose proof (GetString_FromRaw _ _ _ Hconv) as Hget.
    split; [apply Hview; by rewrite Hget|].
    intros Hdiff. apply Hne. rewrite Hget. cbn [fst]. congruence. }
  apply PdfName_of_string_Ok in Hn as [[-> ->]|[(_ & _ & ->)|(_ & _ & ->)]];
    try done.
  cbn [m_dataView] in *.
  split; [by apply Hview|]. split; [by apply Hne; cbn; congruence|].
  split; [|split; [|split; [|done]]].
  - intros chars utf8 Hconv. destruct (Hlazy _ _ Hconv) as [Heq Hneq].
    split; [done|]. split; [done|].
    pose proof (GetString_FromRaw _ _ _ Hconv) as Hget. split; [done|].
    rewrite Hget. by apply Hview.
  - intros chars utf8 isAsciiEqual view Hconv.
    rewrite Hview, (GetString_FromRaw _ _ _ Hconv). cbn [fst]. split; congruence.
  - intros Hconv. destruct (Hlazy _ _ Hconv) as [Heq Hneq].
    split; [by rewrite (GetString_FromRaw _ _ _ Hconv)|]. split; [done|].
    by apply Hneq.
Qed.

End name_properties.

(** ** The resource table *)

(** *** Decimal numerals *)

Lemma pretty_N_char_digit x : is_digit (pretty_N_char x).
Proof.
  unfold pretty_N_char, is_digit.
  repeat case_match; vm_compute; split; discriminate.
Qed.

Lemma pretty_N_go_digits x : ∀ s,
  Forall is_digit (sv s) → Forall is_digit (sv (pretty_N_go x s)).
Proof.
  induction (N.lt_wf_0 x) as [x _ IH]; intros s Hs.
  destruct (decide (x = 0)%N) as [->|Hx]; [by rewrite pretty_N_go_0|].
  rewrite pretty_N_go_step by lia. apply IH.
  - apply N.div_lt; lia.
  - constructor; [apply pretty_N_char_digit|done].
Qed.

Lemma to_string_digits k : Forall is_digit (to_string k).
Proof.
  unfold to_string, pretty, pretty_N. case_decide.
  - repeat constructor; vm_compute; discriminate.
  - apply pretty_N_go_digits. constructor.
Qed.

Lemma sv_inj s1 s2 : sv s1 = sv s2 → s1 = s2.
Proof.
  unfold sv. intros H.
  rewrite <-(string_of_list_ascii_of_string s1), <-(string_of_list_ascii_of_string s2).
  by rewrite H.
Qed.

Lemma to_string_inj a b : 0 ≤ a → 0 ≤ b → to_string a = to_string b → a = b.
Proof.
  unfold to_string. intros Ha Hb H. apply sv_inj in H.
  apply (inj pretty) in H. lia.
Qed.

Lemma is_digit_printable c : is_digit c → ascii_printable c = true.
Proof.
  unfold is_digit, ascii_printable. intros [??].
  apply andb_true_intro. split; apply Z.leb_le; lia.
Qed.

(** *** Categories and counters *)

Lemma valid_type_cases type :
  valid_type type →
  type = ExtGState ∨ type = ColorSpace ∨ type = Pattern ∨ type = Shading ∨
  type = XObject ∨ type = Font ∨ type = Properties.
Proof.
  unfold valid_type. rewrite !elem_of_cons.
  intros [?|[?|[?|[?|[?|[?|[?|H]]]]]]]; auto 10.
  by apply not_elem_of_nil in H.
Qed.

Ltac each_type H :=
  apply valid_type_cases in H;
  destruct H as [H|[H|[H|[H|[H|[H|H]]]]]]; subst.

(** The default branch of the two switches. *)
Lemma getResourceType_invalid type :
  ¬ valid_type type →
  getResourceTypeName type = Raise InvalidEnumValue ∧
  getResourceTypePrefix type = Raise InvalidEnumValue.
Proof.
  intros Hinv. unfold getResourceTypeName, getResourceTypePrefix.
  repeat case_match; try done; exfalso; apply Hinv; subst;
    unfold valid_type; rewrite !elem_of_cons; auto 10.
Qed.

Lemma getResourceType_valid type :
  valid_type type →
  getResourceTypeName type = Ok (PdfName_literal (type_name type)) ∧
  ∃ prefix, getResourceTypePrefix type = Ok prefix ∧
    Forall (λ c, ascii_printable c = true) prefix ∧
    Forall (λ c, ascii_printable c = true) (type_name type) ∧
    type_name type ≠ [] ∧
    ∀ k, candidate type k = prefix ++ to_string k.
Proof.
  intros Hv. each_type Hv; (split; [done|]); eexists; (split; [done|]);
    (split; [by repeat constructor|]); (split; [by repeat constructor|]); done.
Qed.

(** The view of a category name is the view of a literal, which is not null. *)
Lemma valid_type_view type :
  valid_type type →
  PdfName_string_view (PdfName_literal (type_name type)) = Some (type_name type).
Proof. intros Hv. by each_type Hv. Qed.

Lemma counter_index_valid type : valid_type type → (counter_index type < 7)%nat.
Proof. intros Hv. each_type Hv; vm_compute; lia. Qed.

Lemma counter_lookup type ids :
  counters_wf ids → valid_type type →
  ids !! counter_index type = Some (counter type ids) ∧
  0 ≤ counter type ids < 2 ^ 32.
Proof.
  intros [Hlen Hrange] Hv. apply counter_index_valid in Hv.
  destruct (lookup_lt_is_Some_2 ids (counter_index type)) as [v Hlk]; [lia|].
  unfold counter. rewrite Hlk. split; [done|].
  by apply (Forall_lookup_1 _ _ _ _ Hrange Hlk).
Qed.

Lemma counters_wf_insert type ids v :
  counters_wf ids → 0 ≤ v < 2 ^ 32 → counters_wf (<[counter_index type := v]> ids).
Proof.
  intros [Hlen Hrange] Hv. split; [by rewrite length_insert|].
  by apply Forall_insert.
Qed.

Lemma counter_insert type ids v :
  counters_wf ids → valid_type type →
  counter type (<[counter_index type := v]> ids) = v.
Proof.
  intros [Hlen _] Hv. apply counter_index_valid in Hv.
  unfold counter. rewrite list_lookup_insert_eq by lia. done.
Qed.


Lemma advance_0 c : 0 ≤ c < 2 ^ 32 → advance c 0 = c.
Proof. intros Hc. unfold advance. rewrite Z.add_0_r. by apply Z.mod_small. Qed.

Lemma advance_S c j : advance ((c + 1) mod 2 ^ 32) j = advance c (S j).
Proof.
  unfold advance. rewrite Zplus_mod_idemp_l. f_equal. lia.
Qed.

Lemma advance_range c j : 0 ≤ advance c j < 2 ^ 32.
Proof. unfold advance. apply Z.mod_pos_bound. lia. Qed.

Lemma advance_inj c (i j : nat) :
  Z.of_nat i < 2 ^ 32 → Z.of_nat j < 2 ^ 32 → advance c i = advance c j → i = j.
Proof.
  unfold advance. intros Hi Hj Heq.
  pose proof (Z.div_mod (c + Z.of_nat i) (2 ^ 32)) as Hdi.
  pose proof (Z.div_mod (c + Z.of_nat j) (2 ^ 32)) as Hdj.
  pose proof (Z.mod_pos_bound (c + Z.of_nat j) (2 ^ 32)) as Hbj.
  rewrite Heq in Hdi. lia.
Qed.

(** *** The loop of [AddResource] *)

Lemma allocate_loop_free fuel dict prefix type ids currId :
  dict !! (prefix ++ to_string currId) = None →
  allocate_loop fuel dict prefix type ids currId
  = Some (prefix ++ to_string currId, ids).
Proof.
  intros Hfree. destruct fuel; simpl; rewrite Hfree;
    by rewrite bool_decide_false by (by intros [??]).
Qed.

Lemma allocate_loop_collision fuel dict prefix type ids currId :
  is_Some (dict !! (prefix ++ to_string currId)) →
  allocate_loop (S fuel) dict prefix type ids currId
  = allocate_loop fuel dict prefix type (counter_incr type ids)
      (counter type (counter_incr type ids)).
Proof. intros Hcoll. simpl. by rewrite bool_decide_true. Qed.

(** With a free identifier within reach of the iterations the loop
    returns the first free one, and the counter has been advanced once for
    every collision before it. *)
Lemma allocate_loop_find dict prefix type :
  valid_type type → ∀ (j fuel : nat) ids,
  counters_wf ids → (j ≤ fuel)%nat →
  dict !! (prefix ++ to_string (advance (counter type ids) j)) = None →
  ∃ j', (j' ≤ j)%nat ∧
    allocate_loop fuel dict prefix type ids (counter type ids)
    = Some (prefix ++ to_string (advance (counter type ids) j'),
            <[counter_index type := advance (counter type ids) j']> ids) ∧
    dict !! (prefix ++ to_string (advance (counter type ids) j')) = None ∧
    ∀ i, (i < j')%nat →
      is_Some (dict !! (prefix ++ to_string (advance (counter type ids) i))).
Proof.
  intros Hv j. induction j as [|j IH]; intros fuel ids Hwf Hfuel Hfree.
  - destruct (counter_lookup type ids Hwf Hv) as [Hlk Hrange].
    rewrite advance_0 in Hfree by done.
    exists 0%nat. rewrite advance_0 by done. split; [lia|]. split.
    + rewrite allocate_loop_free by done. by rewrite list_insert_id.
    + split; [done|]. intros i Hi. lia.
  - destruct (counter_lookup type ids Hwf Hv) as [Hlk Hrange].
    destruct (dict !! (prefix ++ to_string (counter type ids))) as [o|] eqn:Hhere.
    + destruct fuel as [|fuel]; [lia|].
      rewrite allocate_loop_collision by (by rewrite Hhere).
      assert (counters_wf (counter_incr type ids)) as Hwf'.
      { apply counters_wf_insert; [done|]. apply Z.mod_pos_bound. lia. }
      assert (counter type (counter_incr type ids)
              = (counter type ids + 1) mod 2 ^ 32) as Hc'.
      { by apply counter_insert. }
      destruct (IH fuel (counter_incr type ids) Hwf') as (j' & Hj' & Hrun & Hfree' & Hocc).
      { lia. }
      { by rewrite Hc', advance_S. }
      rewrite Hc', !advance_S in *. exists (S j'). split; [lia|]. split.
      { rewrite Hrun. unfold counter_incr. by rewrite list_insert_insert_eq. }
      split; [done|]. intros [|i] Hi.
      * rewrite advance_0 by done. by rewrite Hhere.
      * specialize (Hocc i). rewrite advance_S in Hocc. apply Hocc. lia.
    + exists 0%nat. rewrite advance_0 by done. split; [lia|]. split.
      * rewrite allocate_loop_free by done. by rewrite list_insert_id.
      * split; [done|]. intros i Hi. lia.
Qed.

(** A dictionary with fewer than [2^32] keys leaves one of the first
    [size dict + 1] identifiers free. *)
Lemma free_identifier (dict : PdfDictionary) prefix c :
  Z.of_nat (size dict) < 2 ^ 32 →
  ∃ j, (j ≤ size dict)%nat ∧ dict !! (prefix ++ to_string (advance c j)) = None.
Proof.
  intros Hsize.
  set (probe := λ j : nat, prefix ++ to_string (advance c j)).
  destruct (Forall_Exists_dec (λ j, is_Some (dict !! probe j)) (λ j, dict !! probe j = None)
              (λ j, match dict !! probe j as o return {is_Some o} + {o = None} with
                    | Some x => left (ex_intro _ x eq_refl)
                    | None => right eq_refl
                    end)
              (seq 0 (S (size dict)))) as [Hall|Hex].
  - exfalso.
    assert (NoDup (probe <$> seq 0 (S (size dict)))) as Hnd.
    { apply NoDup_fmap_2_strong; [|apply NoDup_seq].
      intros i j Hi Hj Heq. apply elem_of_seq in Hi, Hj.
      unfold probe in Heq. apply app_inv_head in Heq.
      apply to_string_inj in Heq; try apply advance_range.
      apply (advance_inj c) in Heq; lia. }
    assert (list_to_set (probe <$> seq 0 (S (size dict))) ⊆ dom dict) as Hsub.
    { intros k Hk. apply elem_of_list_to_set, list_elem_of_fmap in Hk as (j & -> & Hj).
      apply elem_of_dom. by apply (proj1 (Forall_forall _ _) Hall). }
    apply subseteq_size in Hsub.
    rewrite size_list_to_set, length_fmap, length_seq, size_dom in Hsub by done. lia.
  - apply Exists_exists in Hex as (j & Hj & Hfree).
    apply elem_of_seq in Hj. exists j. split; [lia|done].
Qed.

(** *** [AddResource] *)

Lemma subdictionary_with_dictionary type d r :
  subdictionary type (with_dictionary (type_name type) d r) = d.
Proof.
  unfold subdictionary, tryGetDictionary, with_dictionary. simpl.
  by rewrite lookup_insert_eq.
Qed.

Section resource_properties.

Context `{CharsetCodec}.

(** The one fact about the charset codec that the resource table relies
    on: printable ASCII text is valid and is its own encoding. *)
Hypothesis codec_ascii : ∀ view,
  Forall (λ c, ascii_printable c = true) view →
  CheckValidUTF8ToPdfDocEcondingChars view = (true, true).

Lemma name_of_string_ascii view :
  view ≠ [] → Forall (λ c, ascii_printable c = true) view →
  PdfName_of_string view = Ok (ascii_name view).
Proof.
  intros Hne Hascii. unfold PdfName_of_string, initFromUtf8String.
  rewrite bool_decide_false by (by destruct view).
  by rewrite codec_ascii.
Qed.

Lemma candidate_ascii prefix k :
  Forall (λ c, ascii_printable c = true) prefix →
  Forall (λ c, ascii_printable c = true) (prefix ++ to_string k).
Proof.
  intros Hp. apply Forall_app. split; [done|].
  eapply Forall_impl; [apply to_string_digits|]. apply is_digit_printable.
Qed.

Lemma to_string_nonempty k : to_string k ≠ [].
Proof.
  unfold to_string, pretty, pretty_N. case_decide; [done|].
  assert (∀ x s, sv s ≠ [] → sv (pretty_N_go x s) ≠ []) as Hgo.
  { intros x. induction (N.lt_wf_0 x) as [x _ IH]; intros s Hs.
    destruct (decide (x = 0)%N) as [->|Hx]; [by rewrite pretty_N_go_0|].
    rewrite pretty_N_go_step by lia. apply IH; [apply N.div_lt; lia|done]. }
  rewrite pretty_N_go_step by lia. by apply Hgo.
Qed.

Lemma getOrCreateDictionary_spec type r :
  valid_type type →
  getOrCreateDictionary (Some (type_name type)) r
  = (Ok (type_name type, subdictionary type r),
     match tryGetDictionary (type_name type) r with
     | Some _ => r
     | None => with_dictionary (type_name type) ∅ r
     end).
Proof.
  intros Hv. unfold getOrCreateDictionary, subdictionary. cbn [from_option id].
  destruct (tryGetDictionary (type_name type) r) as [d|]; [done|].
  destruct (getResourceType_valid type Hv) as (_ & _ & _ & _ & Hascii & Hne & _).
  change (PdfName_of_string_view (Some (type_name type)))
    with (PdfName_of_string (type_name type)).
  by rewrite name_of_string_ascii.
Qed.

(** What a call of [AddResource] does, given a free identifier within the
    iterations of its loop. *)
Lemma AddResource_spec type obj r (j : nat) :
  counters_wf (m_currResourceIds r) → valid_type type →
  (j ≤ size (subdictionary type r))%nat →
  subdictionary type r
    !! candidate type (advance (counter type (m_currResourceIds r)) j) = None →
  ∃ j', (j' ≤ j)%nat ∧
    let c' := advance (counter type (m_currResourceIds r)) j' in
    AddResource type obj r
    = Some (Ok (ascii_name (candidate type c')),
            {| dictionary :=
                 <[type_name type :=
                     ObjDictionary (<[candidate type c' := obj]> (subdictionary type r))]>
                   (dictionary r);
               m_currResourceIds := <[counter_index type := c']> (m_currResourceIds r) |}) ∧
    subdictionary type r !! candidate type c' = None ∧
    ∀ i, (i < j')%nat →
      is_Some (subdictionary type r
                 !! candidate type (advance (counter type (m_currResourceIds r)) i)).
Proof.
  intros Hwf Hv Hj Hfree.
  destruct (getResourceType_valid type Hv) as (Hname & prefix & Hprefix & Hpa & _ & _ & Hcand).
  rewrite Hcand in Hfree.
  destruct (allocate_loop_find (subdictionary type r) prefix type Hv j
              (S (size (subdictionary type r))) (m_currResourceIds r) Hwf)
    as (j' & Hj' & Hrun & Hfree' & Hocc); [lia|done|].
  exists j'. split; [done|]. cbn zeta. rewrite !Hcand. split; [|split; [done|]].
  - unfold AddResource. rewrite Hname, valid_type_view by done.
    rewrite getOrCreateDictionary_spec by done. rewrite Hprefix.
    assert (m_currResourceIds
              (match tryGetDictionary (type_name type) r with
               | Some _ => r
               | None => with_dictionary (type_name type) ∅ r
               end) = m_currResourceIds r) as -> by (by case_match).
    rewrite Hrun. cbn [mbind option_bind].
    rewrite name_of_string_ascii.
    + do 2 f_equal. unfold with_dictionary.
      cbn [dictionary m_currResourceIds ascii_name m_dataView].
      f_equal. case_match; [done|]. cbn [with_dictionary dictionary].
      by rewrite insert_insert_eq.
    + intros Heq. apply app_eq_nil in Heq as [_ Heq]. by apply to_string_nonempty in Heq.
    + by apply candidate_ascii.
  - intros i Hi. rewrite Hcand. by apply Hocc.
Qed.

(** The loop ends exactly when some identifier of the category is free:
    the call then returns the first free one from the counter on. *)
Lemma AddResource_terminates type obj r :
  counters_wf (m_currResourceIds r) → valid_type type →
  (∃ k, 0 ≤ k < 2 ^ 32 ∧ subdictionary type r !! candidate type k = None) →
  ∃ j, (j ≤ size (subdictionary type r))%nat ∧
    let c' := advance (counter type (m_currResourceIds r)) j in
    AddResource type obj r
    = Some (Ok (ascii_name (candidate type c')),
            {| dictionary :=
                 <[type_name type :=
                     ObjDictionary (<[candidate type c' := obj]> (subdictionary type r))]>
                   (dictionary r);
               m_currResourceIds := <[counter_index type := c']> (m_currResourceIds r) |}) ∧
    subdictionary type r !! candidate type c' = None ∧
    ∀ i, (i < j)%nat →
      is_Some (subdictionary type r
                 !! candidate type (advance (counter type (m_currResourceIds r)) i)).
Proof.
  intros Hwf Hv (k & Hk & Hfree).
  destruct (getResourceType_valid type Hv) as (_ & prefix & _ & _ & _ & _ & Hcand).
  destruct (counter_lookup type _ Hwf Hv) as [_ Hrange].
  set (c := counter type (m_currResourceIds r)) in *.
  set (j := Z.to_nat ((k - c) mod 2 ^ 32)).
  assert (Z.of_nat j < 2 ^ 32 ∧ advance c j = k) as [Hjlt Hadv].
  { pose proof (Z.mod_pos_bound (k - c) (2 ^ 32)) as Hb.
    unfold j, advance. rewrite Z2Nat.id by lia. split; [lia|].
    rewrite Zplus_mod_idemp_r. replace (c + (k - c)) with k by lia.
    by apply Z.mod_small. }
  assert (∃ j0, (j0 ≤ size (subdictionary type r))%nat ∧
            subdictionary type r !! candidate type (advance c j0) = None)
    as (j0 & Hj0 & Hfree0).
  { destruct (decide (j ≤ size (subdictionary type r))%nat) as [Hle|Hgt].
    - exists j. by rewrite Hadv.
    - destruct (free_identifier (subdictionary type r) prefix c) as (j0 & ? & ?); [lia|].
      exists j0. by rewrite Hcand. }
  destruct (AddResource_spec type obj r j0 Hwf Hv Hj0 Hfree0) as (j' & Hj' & Hrun).
  exists j'. split; [lia|done].
Qed.

(** The iterations the model gives the loop run out only where the loop
    of the source does not end: with every identifier of the category
    taken. *)
Lemma AddResource_None type obj r :
  counters_wf (m_currResourceIds r) → valid_type type →
  AddResource type obj r = None →
  ∀ k, 0 ≤ k < 2 ^ 32 → is_Some (subdictionary type r !! candidate type k).
Proof.
  intros Hwf Hv Hnone k Hk.
  destruct (subdictionary type r !! candidate type k) as [o|] eqn:Hfree; [done|].
  destruct (AddResource_terminates type obj r Hwf Hv) as (j & _ & Hrun & _); [eauto|].
  cbn zeta in Hrun. congruence.
Qed.

(** A sub-dictionary with fewer than [2^32] keys has a free identifier. *)
Lemma free_identifier_size type r :
  valid_type type → Z.of_nat (size (subdictionary type r)) < 2 ^ 32 →
  ∃ k, 0 ≤ k < 2 ^ 32 ∧ subdictionary type r !! candidate type k = None.
Proof.
  intros Hv Hsize.
  destruct (getResourceType_valid type Hv) as (_ & prefix & _ & _ & _ & _ & Hcand).
  destruct (free_identifier (subdictionary type r) prefix 0 Hsize) as (j & _ & Hfree).
  exists (advance 0 j). split; [apply advance_range|]. by rewrite Hcand.
Qed.

(** C2: a call of [AddResource] on a category returns whenever an
    identifier of the category is free (as when the sub-dictionary has
    fewer than [2^32] keys), and the name it returns is not a key of that
    sub-dictionary as it is when the call is made: it is the first free
    identifier from the counter on, and the key the call adds.  With "Ft3"
    present in the Font sub-dictionary and the Font counter at 3 the name
    is not "Ft3" but a later identifier of the probing order, "Ft4" or a
    higher one as long as the counter does not wrap. *)
Theorem AddResource_fresh (type : PdfResourceType) (obj : PdfObject) (r : PdfResources) :
  counters_wf (m_currResourceIds r) → valid_type type →
  (∃ k, 0 ≤ k < 2 ^ 32 ∧ subdictionary type r !! candidate type k = None) →
  ∃ name r' (j : nat),
    AddResource type obj r = Some (Ok name, r') ∧
    subdictionary type r !! m_dataView name = None ∧
    (j ≤ size (subdictionary type r))%nat ∧
    m_dataView name = candidate type (advance (counter type (m_currResourceIds r)) j) ∧
    (∀ i, (i < j)%nat →
       is_Some (subdictionary type r
                  !! candidate type (advance (counter type (m_currResourceIds r)) i))) ∧
    subdictionary type r' = <[m_dataView name := obj]> (subdictionary type r) ∧
    counters_wf (m_currResourceIds r') ∧
    (type = Font → counter Font (m_currResourceIds r) = 3 →
     is_Some (subdictionary Font r !! sv "Ft3") →
       m_dataView name ≠ sv "Ft3" ∧ (0 < j)%nat ∧
       (3 + Z.of_nat (size (subdictionary Font r)) < 2 ^ 32 →
          ∃ k, 4 ≤ k ∧ m_dataView name = sv "Ft" ++ to_string k)).
Proof.
  intros Hwf Hv Hfreek.
  destruct (AddResource_terminates type obj r Hwf Hv Hfreek)
    as (j & Hj & Hrun & Hfree & Hocc).
  cbn zeta in *. eexists _, _, j. split; [exact Hrun|].
  cbn [ascii_name m_dataView m_currResourceIds].
  split; [done|]. split; [done|]. split; [done|]. split; [done|]. split.
  { unfold subdictionary at 1, tryGetDictionary. cbn [dictionary].
    by rewrite lookup_insert_eq. }
  split.
  { apply counters_wf_insert; [done|apply advance_range]. }
  intros -> Hc HFt3. rewrite Hc in *.
  assert (candidate Font 3 = sv "Ft3") as Hk3 by done.
  assert (0 < j)%nat as Hpos.
  { destruct j as [|j]; [|lia]. rewrite advance_0, Hk3 in Hfree by lia.
    rewrite Hfree in HFt3. by destruct HFt3. }
  split; [|split; [done|]].
  - intros Heq. rewrite Heq in Hfree. rewrite Hfree in HFt3. by destruct HFt3.
  - intros Hnowrap. exists (3 + Z.of_nat j). split; [lia|].
    unfold advance. rewrite Z.mod_small by lia. done.
Qed.

(** C6: on a table whose XObject sub-dictionary is empty and whose XObject
    counter is zero, [AddResource(XObject, obj)] returns the name "XOb0",
    and a second call on the resulting table returns "XOb1". *)
Theorem AddResource_XObject_twice (obj obj' : PdfObject) (r : PdfResources) :
  counters_wf (m_currResourceIds r) →
  counter XObject (m_currResourceIds r) = 0 →
  subdictionary XObject r = ∅ →
  ∃ r1 r2,
    AddResource XObject obj r = Some (Ok (ascii_name (sv "XOb0")), r1) ∧
    AddResource XObject obj' r1 = Some (Ok (ascii_name (sv "XOb1")), r2) ∧
    subdictionary XObject r2 = <[sv "XOb1" := obj']> (<[sv "XOb0" := obj]> ∅).
Proof.
  intros Hwf Hc Hempty.
  assert (valid_type XObject) as Hv by (unfold valid_type; set_solver).
  destruct (AddResource_spec XObject obj r 0 Hwf Hv) as (j & Hj & Hrun & _).
  { lia. }
  { rewrite Hempty. apply lookup_empty. }
  assert (j = 0%nat) as -> by lia.
  cbn zeta in Hrun. rewrite Hc, Hempty in Hrun.
  change (candidate XObject (advance 0 0)) with (sv "XOb0") in Hrun.
  eexists _. rewrite Hrun.
  set (r1 := {| dictionary := _; m_currResourceIds := _ |}).
  assert (counters_wf (m_currResourceIds r1)) as Hwf1.
  { apply counters_wf_insert; [done|apply advance_range]. }
  assert (counter XObject (m_currResourceIds r1) = 0) as Hc1.
  { unfold r1. cbn [m_currResourceIds]. by rewrite counter_insert. }
  assert (subdictionary XObject r1 = <[sv "XOb0" := obj]> ∅) as Hsub1.
  { unfold r1, subdictionary, tryGetDictionary. cbn [dictionary].
    by rewrite lookup_insert_eq. }
  destruct (AddResource_spec XObject obj' r1 1 Hwf1 Hv)
    as (j2 & Hj2 & Hrun1 & Hfree1 & _).
  { rewrite Hsub1, map_size_insert_None by apply lookup_empty. lia. }
  { rewrite Hsub1, Hc1. by rewrite lookup_insert_ne, lookup_empty. }
  rewrite Hc1, Hsub1 in Hrun1, Hfree1.
  destruct j2 as [|[|j2]]; [|clear Hfree1|lia].
  { exfalso.
    change (candidate XObject (advance 0 0)) with (sv "XOb0") in Hfree1.
    by rewrite lookup_insert_eq in Hfree1. }
  change (candidate XObject (advance 0 1)) with (sv "XOb1") in Hrun1.
  eexists _. split; [done|]. split; [exact Hrun1|].
  unfold subdictionary, tryGetDictionary. cbn [dictionary].
  by rewrite lookup_insert_eq.
Qed.

Lemma getOrCreateDictionary_counters type r :
  m_currResourceIds (getOrCreateDictionary type r).2 = m_currResourceIds r.
Proof.
  unfold getOrCreateDictionary.
  destruct (tryGetDictionary (default [] type) r); [done|].
  by destruct (PdfName_of_string_view type).
Qed.

Lemma AddResource_named_counters type key obj r :
  m_currResourceIds (AddResource_named type key obj r).2 = m_currResourceIds r.
Proof.
  unfold AddResource_named.
  pose proof (getOrCreateDictionary_counters (PdfName_string_view type) r) as Hids.
  by destruct (getOrCreateDictionary (PdfName_string_view type) r) as [[[loc dict]|e] r0].
Qed.


(** C10: with a category outside the enumeration [AddResource] raises
    InvalidEnumValue and the table is the one it was given: the same
    dictionary, the same counters. *)
Theorem AddResource_invalid_type (type : PdfResourceType) (obj : PdfObject)
    (r : PdfResources) :
  ¬ valid_type type →
  AddResource type obj r = Some (Raise InvalidEnumValue, r).
Proof.
  intros Hinv. unfold AddResource.
  by rewrite (proj1 (getResourceType_invalid type Hinv)).
Qed.

(** A call on a sub-dictionary with fewer than [2^32] keys: the name is
    fresh, it is the one key added, and the counters stay well formed. *)
Lemma AddResource_call type obj r :
  counters_wf (m_currResourceIds r) → valid_type type →
  Z.of_nat (size (subdictionary type r)) < 2 ^ 32 →
  ∃ name r',
    AddResource type obj r = Some (Ok name, r') ∧
    subdictionary type r !! m_dataView name = None ∧
    subdictionary type r' = <[m_dataView name := obj]> (subdictionary type r) ∧
    counters_wf (m_currResourceIds r').
Proof.
  intros Hwf Hv Hsize.
  destruct (AddResource_terminates type obj r Hwf Hv (free_identifier_size type r Hv Hsize))
    as (j & Hj & Hrun & Hfree & Hocc).
  cbn zeta in *. eexists _, _. split; [exact Hrun|].
  cbn [ascii_name m_dataView m_currResourceIds]. split; [done|]. split.
  - unfold subdictionary at 1, tryGetDictionary. cbn [dictionary].
    by rewrite lookup_insert_eq.
  - apply counters_wf_insert; [done|apply advance_range].
Qed.

(** Allocator uniqueness: in a sequence of calls on one category every
    call returns, each name is fresh for the sub-dictionary its call finds,
    none is a key that was there before the sequence, and no two are the
    same. *)
Lemma AddResource_calls_fresh type objs : ∀ r,
  counters_wf (m_currResourceIds r) → valid_type type →
  Z.of_nat (size (subdictionary type r) + length objs) < 2 ^ 32 →
  ∃ calls r',
    AddResource_calls type objs r = Some (calls, r') ∧
    length calls = length objs ∧
    dom (subdictionary type r) ⊆ dom (subdictionary type r') ∧
    (∀ r0 name, (r0, name) ∈ calls →
       subdictionary type r0 !! m_dataView name = None ∧
       dom (subdictionary type r) ⊆ dom (subdictionary type r0) ∧
       m_dataView name ∈ dom (subdictionary type r')) ∧
    NoDup ((λ c, m_dataView c.2) <$> calls).
Proof.
  induction objs as [|obj objs IH]; intros r Hwf Hv Hsize.
  - exists [], r. split; [done|]. split; [done|]. split; [done|]. split.
    + intros r0 name Hin. by apply not_elem_of_nil in Hin.
    + constructor.
  - simpl in Hsize.
    destruct (AddResource_call type obj r Hwf Hv) as (name & r1 & Hrun & Hfree & Hsub1 & Hwf1).
    { lia. }
    destruct (IH r1 Hwf1 Hv) as (calls & r' & Hcalls & Hlen & Hdom & Hall & Hnd).
    { rewrite Hsub1, map_size_insert_None by done. lia. }
    assert (dom (subdictionary type r1)
            = {[m_dataView name]} ∪ dom (subdictionary type r)) as Hdom1.
    { by rewrite Hsub1, dom_insert_L. }
    exists ((r, name) :: calls), r'. simpl. rewrite Hrun, Hcalls. simpl.
    assert (dom (subdictionary type r) ⊆ dom (subdictionary type r1)) as Hsub.
    { rewrite Hdom1. apply union_subseteq_r. }
    split; [done|]. split; [by rewrite Hlen|]. split; [by etrans|]. split.
    + intros r0 name0 Hin. apply elem_of_cons in Hin as [[= -> ->]|Hin].
      * split; [done|]. split; [done|]. apply Hdom. rewrite Hdom1.
        apply elem_of_union_l. by apply elem_of_singleton.
      * destruct (Hall r0 name0 Hin) as (Hf & Hd & He).
        split; [done|]. split; [by etrans|done].
    + constructor; [|done]. intros Hin.
      apply list_elem_of_fmap in Hin as ([r0 name0] & Heq & Hin). simpl in Heq.
      destruct (Hall r0 name0 Hin) as (Hf & Hd & _).
      apply not_elem_of_dom in Hf. rewrite <-Heq in Hf. apply Hf, Hd. rewrite Hdom1.
      apply elem_of_union_l. by apply elem_of_singleton.
Qed.

End resource_properties.

(** C7: for a category value that is none of ExtGState, ColorSpace,
    Pattern, Shading, XObject, Font and Properties, [getResourceTypeName]
    and [getResourceTypePrefix] both raise InvalidEnumValue. *)
Theorem resource_type_outside_enumeration (type : PdfResourceType) :
  type ≠ ExtGState → type ≠ ColorSpace → type ≠ Pattern → type ≠ Shading →
  type ≠ XObject → type ≠ Font → type ≠ Properties →
  getResourceTypeName type = Raise InvalidEnumValue ∧
  getResourceTypePrefix type = Raise InvalidEnumValue.
Proof.
  intros. apply getResourceType_invalid. intros Hv. each_type Hv; done.
Qed.

(** ** Further properties of the codec *)

Lemma unescape_rec_bounds n : ∀ view,
  (length view ≤ n)%nat →
  (length (unescape_rec view) ≤ length view)%nat ∧
  (length view ≤ 3 * length (unescape_rec view))%nat.
Proof.
  induction n as [|n IH]; intros view Hn.
  - destruct view; [simpl; lia|simpl in Hn; lia].
  - destruct view as [|c rest]; [simpl; lia|]. simpl in Hn.
    destruct (decide (c = HASH ∧ (2 ≤ length rest)%nat)) as [[-> Hrest]|Hno].
    + destruct rest as [|hi [|low rest]]; try (simpl in Hrest; lia).
      rewrite unescape_rec_escape. simpl in Hn |- *.
      destruct (IH rest) as [??]; lia.
    + rewrite unescape_rec_no_escape by done. simpl.
      destruct (IH rest) as [??]; lia.
Qed.

(** [unescapeName] reads inside its input only and returns for every
    input; its result is at most as long as the input, as the source
    notes before reserving, and at least a third as long. *)
Theorem unescapeName_length (view : bytes) :
  ∃ out, unescapeName view = Some out ∧
    (length out ≤ length view)%nat ∧ (length view ≤ 3 * length out)%nat.
Proof.
  exists (unescape_rec view). split; [apply unescapeName_rec|].
  by apply (unescape_rec_bounds (length view)).
Qed.

(** An input without [#] is returned as it is. *)
Theorem unescapeName_no_hash (view : bytes) :
  HASH ∉ view → unescapeName view = Some view.
Proof.
  intros Hno. rewrite unescapeName_rec. f_equal.
  induction view as [|c rest IH]; [done|].
  apply not_elem_of_cons in Hno as [Hc Hrest].
  rewrite unescape_rec_copy by done. by rewrite IH.
Qed.

Lemma hex_value_cases h :
  0 ≤ h < 16 →
  h = 0 ∨ h = 1 ∨ h = 2 ∨ h = 3 ∨ h = 4 ∨ h = 5 ∨ h = 6 ∨ h = 7 ∨
  h = 8 ∨ h = 9 ∨ h = 10 ∨ h = 11 ∨ h = 12 ∨ h = 13 ∨ h = 14 ∨ h = 15.
Proof. lia. Qed.

Ltac each_hex H :=
  apply hex_value_cases in H;
  destruct H as [H|[H|[H|[H|[H|[H|[H|[H|[H|[H|[H|[H|[H|[H|[H|H]]]]]]]]]]]]]]];
  subst.

(** The two digits after a [#] are read in either case: upper and lower
    case digits, in any combination, give the byte with these two
    nibbles. *)
Theorem unescapeName_hex_either_case (h l : Z) (d1 d2 : ascii) (rest : bytes) :
  0 ≤ h < 16 → 0 ≤ l < 16 →
  d1 = hexdigit h ∨ d1 = hexdigit_lower h →
  d2 = hexdigit l ∨ d2 = hexdigit_lower l →
  unescapeName (HASH :: d1 :: d2 :: rest)
  = (to_uchar (16 * h + l) ::.) <$> unescapeName rest.
Proof.
  intros Hh Hl Hd1 Hd2. rewrite !unescapeName_rec, unescape_rec_escape.
  cbn [fmap option_fmap option_map]. do 2 f_equal.
  each_hex Hh; each_hex Hl; destruct Hd1 as [->| ->]; destruct Hd2 as [->| ->];
    vm_compute; reflexivity.
Qed.

Section codec_more.

Context `{Tokenizer}.

Lemma length_escaped view :
  length (escaped view)
  = (length view + 2 * length (filter (λ c, needs_escape c) view))%nat.
Proof.
  induction view as [|ch view IH]; [done|].
  rewrite escaped_cons, length_app, length_escape_byte, IH, filter_cons.
  case_decide as Hesc; unfold needs_escape in Hesc;
    destruct (verbatim ch); simpl in *; try done; lia.
Qed.

(** [escapeNameTo] stores inside the buffer it has resized only, for
    every state of [dst]; its result is never shorter than the input and
    never longer than three times the input: two more bytes for every byte
    that is escaped. *)
Theorem escapeNameTo_length (dst view : bytes) :
  NUL ∉ view →
  ∃ out, escapeNameTo dst view = Some (Ok (), out) ∧
    length out = (length view + 2 * length (filter (λ c, needs_escape c) view))%nat ∧
    (length view ≤ length out)%nat ∧ (length out ≤ 3 * length view)%nat.
Proof.
  intros Hnul. exists (escaped view). split; [by apply escapeNameTo_escaped|].
  rewrite length_escaped. split; [done|].
  pose proof (length_filter (λ c, needs_escape c) view). lia.
Qed.

(** What [dst] held before the call does not show in the result. *)
Theorem escapeNameTo_overwrites (dst dst' view : bytes) :
  NUL ∉ view → escapeNameTo dst view = escapeNameTo dst' view.
Proof. intros Hnul. by rewrite !escapeNameTo_escaped. Qed.

Lemma escaped_verbatim view :
  Forall (λ c, verbatim c = true) view → escaped view = view.
Proof.
  induction 1 as [|c view Hc Hall IH]; [done|].
  rewrite escaped_cons, IH. unfold escape_byte. by rewrite Hc.
Qed.

(** A name is its own escaped form exactly when each of its bytes is a
    regular, printable character other than [#]. *)
Theorem escapeNameTo_identity (dst view : bytes) :
  NUL ∉ view →
  escapeNameTo dst view = Some (Ok (), view) ↔ Forall (λ c, verbatim c = true) view.
Proof.
  intros Hnul. rewrite escapeNameTo_escaped by done. split.
  - intros [= Heq].
    pose proof (length_escaped view) as Hlen. rewrite Heq in Hlen.
    assert (filter (λ c, needs_escape c) view = []) as Hnone.
    { apply length_zero_iff_nil. lia. }
    apply Forall_forall. intros c Hc.
    destruct (verbatim c) eqn:Hv; [done|]. exfalso.
    assert (c ∈ filter (λ c, needs_escape c) view) as Hin.
    { apply list_elem_of_filter. split; [|done]. unfold needs_escape. by rewrite Hv. }
    rewrite Hnone in Hin. by apply not_elem_of_nil in Hin.
  - intros Hall. by rewrite escaped_verbatim.
Qed.

(** The escaped form is made of the bytes that are copied, of [#] and of
    the sixteen upper case digits. *)
Theorem escapeNameTo_alphabet (dst view out : bytes) :
  escapeNameTo dst view = Some (Ok (), out) →
  Forall (λ c, verbatim c = true ∨ c = HASH ∨ c ∈ hexdigits) out.
Proof.
  intros Hrun.
  assert (NUL ∉ view) as Hnul.
  { intros Hin. unfold escapeNameTo in Hrun.
    by rewrite (escape_scan_null view 0%nat Hin) in Hrun. }
  rewrite escapeNameTo_escaped in Hrun by done. injection Hrun as <-.
  clear Hnul. induction view as [|ch view IH]; [constructor|].
  rewrite escaped_cons. apply Forall_app. split; [|done].
  unfold escape_byte. destruct (verbatim ch) eqn:Hv.
  - constructor; [by left|constructor].
  - assert (∀ k, 0 ≤ k < 16 → hexdigit k ∈ hexdigits) as Hdigit.
    { intros k Hk. each_hex Hk; by apply (bool_decide_unpack _). }
    assert (0 ≤ byte_val ch < 256) as Hrange.
    { unfold byte_val. pose proof (N_ascii_bounded ch). lia. }
    constructor; [right; by left|].
    constructor.
    { right. right. apply Hdigit. split; [apply Z.div_pos; lia|].
      apply Z.div_lt_upper_bound; lia. }
    constructor; [|constructor].
    right. right. apply Hdigit. apply Z.mod_pos_bound. lia.
Qed.

(** Two names with the same escaped form are the same name. *)
Theorem escapeNameTo_inj (dst1 dst2 view1 view2 out : bytes) :
  escapeNameTo dst1 view1 = Some (Ok (), out) →
  escapeNameTo dst2 view2 = Some (Ok (), out) →
  view1 = view2.
Proof.
  intros Hrun1 Hrun2.
  assert (∀ dst view, escapeNameTo dst view = Some (Ok (), out) →
            unescape_rec out = view) as Hback.
  { intros dst view Hrun.
    assert (NUL ∉ view) as Hnul.
    { intros Hin. unfold escapeNameTo in Hrun.
      by rewrite (escape_scan_null view 0%nat Hin) in Hrun. }
    rewrite escapeNameTo_escaped in Hrun by done. injection Hrun as <-.
    apply unescape_rec_escaped. }
  by rewrite <-(Hback dst1 view1 Hrun1), <-(Hback dst2 view2 Hrun2).
Qed.

End codec_more.

(** ** Further properties of names *)

Section name_codec.

Context `{Tokenizer}.

(** A name without null byte that is written in escaped form and read
    back by [FromEscaped] is a name equal to it; the name read owns its
    bytes and has no text cached yet. *)
Theorem FromEscaped_GetEscapedName_eq (n : PdfName) :
  NUL ∉ m_dataView n →
  ∃ lexical n',
    GetEscapedName n = Some (Ok (), lexical) ∧
    FromEscaped lexical = Some n' ∧
    PdfName_eq n' n = true ∧
    m_data n' = Some {| Chars := m_dataView n; Utf8String := None;
                        IsUtf8Expanded := false |}.
Proof.
  intros Hnul.
  destruct (FromEscaped_GetEscapedName n Hnul) as (lexical & Hesc & Hread).
  exists lexical, (FromRaw (m_dataView n)). split; [done|]. split; [done|].
  split; [by apply PdfName_eq_raw|done].
Qed.

(** [PdfName::Write] puts the delimiter and then the escaped form on the
    device; unescaping what follows the delimiter gives the raw bytes.  For
    the null name the delimiter is all that is written and the scratch
    buffer is not touched; otherwise the buffer holds the escaped form
    afterwards. *)
Theorem Write_escaped (device buffer : bytes) (n : PdfName) :
  NUL ∉ m_dataView n →
  ∃ lexical,
    GetEscapedName n = Some (Ok (), lexical) ∧
    Write device buffer n
    = Some (Ok (), device ++ "/"%char :: lexical,
            if IsNull n then buffer else lexical) ∧
    unescapeName lexical = Some (m_dataView n).
Proof.
  intros Hnul. unfold GetEscapedName, Write, IsNull, device_write.
  case_bool_decide as Hlen.
  - exists []. rewrite bool_decide_false by (by intros ?).
    apply length_zero_iff_nil in Hlen. by rewrite Hlen.
  - exists (escaped (m_dataView n)). rewrite bool_decide_true by done.
    rewrite !escapeNameTo_escaped by done. cbn [mbind option_bind].
    split; [done|]. split; [by rewrite <-app_assoc|].
    by rewrite unescapeName_rec, unescape_rec_escaped.
Qed.

(** [FromEscaped] checks nothing: a lexical form that decodes to a null
    byte makes a name with that byte, and such a name cannot be written
    any more: [GetEscapedName] raises InvalidName, and so does [Write],
    after it has put the delimiter on the device. *)
Theorem FromEscaped_null_unwritable (view raw device buffer : bytes) :
  unescapeName view = Some raw → NUL ∈ raw →
  ∃ n,
    FromEscaped view = Some n ∧ m_dataView n = raw ∧
    GetEscapedName n = Some (Raise InvalidName, []) ∧
    Write device buffer n = Some (Raise InvalidName, device ++ ["/"%char], buffer).
Proof.
  intros Hread Hnul. exists (FromRaw raw).
  unfold FromEscaped. rewrite Hread. split; [done|]. split; [done|].
  assert (length raw ≠ 0%nat) as Hlen by (by destruct raw; [apply not_elem_of_nil in Hnul|]).
  unfold GetEscapedName, Write, escapeNameTo, device_write. cbn [FromRaw PdfName_of_charbuff m_dataView].
  rewrite bool_decide_false, bool_decide_true by done.
  by rewrite (escape_scan_null raw 0%nat Hnul).
Qed.

End name_codec.

Lemma sv_compare_eq a : ∀ b, sv_compare a b = Eq ↔ a = b.
Proof.
  induction a as [|x a IH]; intros [|y b]; simpl; try done.
  destruct (Z.compare_spec (byte_val x) (byte_val y)) as [Heq|Hlt|Hgt].
  - apply byte_val_inj in Heq as ->. rewrite IH. split; [by intros ->|by intros [= ->]].
  - split; [done|]. intros [= -> _]. lia.
  - split; [done|]. intros [= -> _]. lia.
Qed.

Lemma sv_compare_opp a : ∀ b, sv_compare b a = CompOpp (sv_compare a b).
Proof.
  induction a as [|x a IH]; intros [|y b]; simpl; try done.
  rewrite (Z.compare_antisym (byte_val x) (byte_val y)).
  destruct (byte_val x ?= byte_val y); simpl; [apply IH|done|done].
Qed.

Lemma bytewise_lt_trans a b c : bytewise_lt a b → bytewise_lt b c → bytewise_lt a c.
Proof.
  intros Hab. revert c. induction Hab as [y b|x y a b Hxy|x a b Hab IH]; intros c Hbc.
  - inversion Hbc; subst; constructor.
  - inversion Hbc; subst; [constructor; lia|by constructor].
  - inversion Hbc; subst; [by constructor|]. constructor 3. by apply IH.
Qed.

(** [operator<] is a strict total order that agrees with [operator==]:
    of two names exactly one is below the other or they are equal, and the
    order is transitive.  Names can be the keys of an ordered map. *)
Theorem PdfName_order (a b : PdfName) :
  (PdfName_lt a b = true ∨ PdfName_eq a b = true ∨ PdfName_lt b a = true) ∧
  ¬ (PdfName_lt a b = true ∧ PdfName_eq a b = true) ∧
  ¬ (PdfName_lt a b = true ∧ PdfName_lt b a = true) ∧
  PdfName_eq a b = PdfName_eq b a ∧
  ∀ c, PdfName_lt a b = true → PdfName_lt b c = true → PdfName_lt a c = true.
Proof.
  unfold PdfName_lt, PdfName_eq, sv_ltb, sv_eqb.
  pose proof (sv_compare_eq (m_dataView a) (m_dataView b)) as Heq.
  pose proof (sv_compare_opp (m_dataView a) (m_dataView b)) as Hopp.
  rewrite Hopp. split; [|split; [|split; [|split]]].
  - destruct (sv_compare (m_dataView a) (m_dataView b)); simpl; auto.
    right. left. apply bool_decide_eq_true. by apply Heq.
  - intros [Hlt Hraw]. apply bool_decide_eq_true in Hraw. apply Heq in Hraw.
    by rewrite Hraw in Hlt.
  - by destruct (sv_compare (m_dataView a) (m_dataView b)); intros [??].
  - apply bool_decide_ext. split; by intros ->.
  - intros c Hab Hbc.
    apply (sv_ltb_bytewise (m_dataView a) (m_dataView c)).
    apply bytewise_lt_trans with (m_dataView b); by apply sv_ltb_bytewise.
Qed.

Section name_text.

Context `{CharsetCodec}.

(** The text is expanded once: a second [GetString] returns the same text
    and changes nothing; the expansion leaves the raw bytes, and with them
    equality and order, as they are. *)
Theorem GetString_memoized (n : PdfName) :
  GetString (GetString n).2 = ((GetString n).1, (GetString n).2) ∧
  m_dataView (GetString n).2 = m_dataView n ∧
  ∀ b, PdfName_eq (GetString n).2 b = PdfName_eq n b ∧
       PdfName_lt (GetString n).2 b = PdfName_lt n b.
Proof.
  unfold GetString. destruct n as [[d|] view]; cbn [m_data m_dataView fst snd];
    [|by rewrite ?eq_refl].
  assert (expandUtf8String (expandUtf8String d) = expandUtf8String d) as Hidem.
  { unfold expandUtf8String. destruct (IsUtf8Expanded d) eqn:Hexp; simpl.
    - by rewrite Hexp.
    - by destruct (ConvertPdfDocEncodingToUTF8 (Chars d)). }
  rewrite Hidem. done.
Qed.

(** A name made from UTF-8 text shows that text: [GetString] returns it,
    without a conversion and without a change to the name. *)
Theorem GetString_of_string (text : bytes) (n : PdfName) :
  PdfName_of_string text = Ok n → GetString n = (text, n).
Proof.
  intros Hn.
  apply PdfName_of_string_Ok in Hn as [[-> ->]|[(_ & _ & ->)|(_ & _ & ->)]]; done.
Qed.

End name_text.

(** ** Further properties of the resource table *)

Lemma valid_type_name type :
  valid_type type → getResourceTypeName type = Ok (PdfName_literal (type_name type)).
Proof. intros Hv. by destruct (getResourceType_valid type Hv) as [? _]. Qed.

Lemma type_name_inj type type' :
  valid_type type → valid_type type' → type_name type = type_name type' → type = type'.
Proof.
  intros Hv Hv' Heq. each_type Hv; each_type Hv'; try reflexivity;
    vm_compute in Heq; discriminate Heq.
Qed.

Lemma candidate_inj type a b :
  valid_type type → 0 ≤ a → 0 ≤ b → candidate type a = candidate type b → a = b.
Proof.
  intros Hv Ha Hb Heq.
  destruct (getResourceType_valid type Hv) as (_ & prefix & _ & _ & _ & _ & Hcand).
  rewrite !Hcand in Heq. apply app_inv_head in Heq. by apply to_string_inj.
Qed.

(** A lookup in a valid category is a lookup in its sub-dictionary. *)
Lemma GetResource_valid type key r :
  valid_type type → GetResource type key r = Ok (subdictionary type r !! key).
Proof.
  intros Hv. unfold GetResource, getResource, subdictionary.
  rewrite (valid_type_name type Hv). cbn [PdfName_literal m_dataView].
  by destruct (tryGetDictionary (type_name type) r).
Qed.

Lemma subdictionary_insert type d m ids :
  subdictionary type
    {| dictionary := <[type_name type := ObjDictionary d]> m; m_currResourceIds := ids |}
  = d.
Proof.
  unfold subdictionary, tryGetDictionary. cbn [dictionary]. by rewrite lookup_insert_eq.
Qed.

Lemma subdictionary_insert_ne type type' o m ids r :
  valid_type type → valid_type type' → type ≠ type' → dictionary r = m →
  subdictionary type'
    {| dictionary := <[type_name type := o]> m; m_currResourceIds := ids |}
  = subdictionary type' r.
Proof.
  intros Hv Hv' Hne <-. unfold subdictionary, tryGetDictionary. cbn [dictionary].
  rewrite lookup_insert_ne; [done|]. intros Heq. by apply Hne, type_name_inj.
Qed.

Lemma subdictionary_delete_ne type type' m ids r :
  valid_type type → valid_type type' → type ≠ type' → dictionary r = m →
  subdictionary type'
    {| dictionary := delete (type_name type) m; m_currResourceIds := ids |}
  = subdictionary type' r.
Proof.
  intros Hv Hv' Hne <-. unfold subdictionary, tryGetDictionary. cbn [dictionary].
  rewrite lookup_delete_ne; [done|]. intros Heq. by apply Hne, type_name_inj.
Qed.

Lemma RemoveResource_valid type key r :
  valid_type type →
  RemoveResource type key r = (Ok (), RemoveResource_named (type_name type) key r).
Proof. intros Hv. unfold RemoveResource. by rewrite (valid_type_name type Hv). Qed.

Lemma RemoveResources_valid type r :
  valid_type type →
  RemoveResources type r = (Ok (), RemoveResources_named (type_name type) r).
Proof. intros Hv. unfold RemoveResources. by rewrite (valid_type_name type Hv). Qed.

Lemma subdictionary_RemoveResource type key r :
  subdictionary type (RemoveResource_named (type_name type) key r)
  = delete key (subdictionary type r).
Proof.
  unfold RemoveResource_named, subdictionary.
  destruct (tryGetDictionary (type_name type) r) as [d|] eqn:Hd.
  - unfold tryGetDictionary, with_dictionary. cbn [dictionary].
    by rewrite lookup_insert_eq.
  - rewrite Hd. simpl. by rewrite delete_empty.
Qed.

Lemma subdictionary_RemoveResources type r :
  subdictionary type (RemoveResources_named (type_name type) r) = ∅.
Proof.
  unfold RemoveResources_named, subdictionary, tryGetDictionary. cbn [dictionary].
  by rewrite lookup_delete_eq.
Qed.

(** A category that the table does not have, or whose entry is not a
    dictionary, has no resources: [GetResource] returns nothing for every
    key, and raises nothing. *)
Theorem GetResource_missing_category (type : PdfResourceType) (key : bytes)
    (r : PdfResources) :
  valid_type type → tryGetDictionary (type_name type) r = None →
  GetResource type key r = Ok None.
Proof.
  intros Hv Hnone. rewrite GetResource_valid by done.
  unfold subdictionary. by rewrite Hnone.
Qed.

(** [RemoveResource] deletes the one key: a lookup of it finds nothing
    afterwards, every other lookup finds what it found before, the counters
    are as before; on a category the table does not have it changes
    nothing. *)
Theorem RemoveResource_GetResource (type : PdfResourceType) (key : bytes)
    (r : PdfResources) :
  valid_type type →
  ∃ r',
    RemoveResource type key r = (Ok (), r') ∧
    GetResource type key r' = Ok None ∧
    (∀ type' key', valid_type type' → (type', key') ≠ (type, key) →
       GetResource type' key' r' = GetResource type' key' r) ∧
    (∀ k, k ≠ type_name type → dictionary r' !! k = dictionary r !! k) ∧
    m_currResourceIds r' = m_currResourceIds r ∧
    (tryGetDictionary (type_name type) r = None → r' = r).
Proof.
  intros Hv. unfold RemoveResource, RemoveResource_named.
  rewrite (valid_type_name type Hv). cbn [PdfName_literal m_dataView].
  eexists. split; [reflexivity|].
  destruct (tryGetDictionary (type_name type) r) as [d|] eqn:Hd.
  - assert (subdictionary type r = d) as Hsub by (unfold subdictionary; by rewrite Hd).
    unfold with_dictionary. split; [|split; [|split; [|split]]].
    + rewrite GetResource_valid, subdictionary_insert by done. by rewrite lookup_delete_eq.
    + intros type' key' Hv' Hne. rewrite !GetResource_valid by done.
      destruct (decide (type' = type)) as [->|Hty].
      * rewrite subdictionary_insert, Hsub. rewrite lookup_delete_ne; [done|].
        intros ->. by apply Hne.
      * by rewrite (subdictionary_insert_ne type type' _ _ _ r).
    + intros k Hk. cbn [dictionary]. by rewrite lookup_insert_ne.
    + done.
    + done.
  - split; [|split; [|done]].
    + rewrite GetResource_valid by done. unfold subdictionary. by rewrite Hd.
    + done.
Qed.

(** [RemoveResources] deletes the entry of the category, whatever it is:
    no key of the category is found afterwards, the other categories and
    the counters are as before. *)
Theorem RemoveResources_GetResource (type : PdfResourceType) (r : PdfResources) :
  valid_type type →
  ∃ r',
    RemoveResources type r = (Ok (), r') ∧
    dictionary r' !! type_name type = None ∧
    (∀ key, GetResource type key r' = Ok None) ∧
    (∀ type' key, valid_type type' → type' ≠ type →
       GetResource type' key r' = GetResource type' key r) ∧
    (∀ k, k ≠ type_name type → dictionary r' !! k = dictionary r !! k) ∧
    m_currResourceIds r' = m_currResourceIds r.
Proof.
  intros Hv. unfold RemoveResources, RemoveResources_named.
  rewrite (valid_type_name type Hv). cbn [PdfName_literal m_dataView].
  eexists. split; [reflexivity|]. cbn [dictionary m_currResourceIds].
  split; [apply lookup_delete_eq|]. split; [|split; [|split; [|done]]].
  - intros key. rewrite GetResource_valid by done.
    unfold subdictionary, tryGetDictionary. cbn [dictionary].
    by rewrite lookup_delete_eq.
  - intros type' key Hv' Hne. rewrite !GetResource_valid by done.
    by rewrite (subdictionary_delete_ne type type' _ _ r).
  - intros k Hk. by rewrite lookup_delete_ne.
Qed.

Section resource_more.

Context `{CharsetCodec}.

(** With a category outside the enumeration every operation that takes a
    category raises InvalidEnumValue, and those that return the table
    return it as it was. *)
Theorem invalid_type_operations (type : PdfResourceType) (key : bytes) (name : PdfName)
    (obj : PdfObject) (r : PdfResources) :
  ¬ valid_type type →
  AddResource_keyed type name obj r = (Raise InvalidEnumValue, r) ∧
  RemoveResource type key r = (Raise InvalidEnumValue, r) ∧
  RemoveResources type r = (Raise InvalidEnumValue, r) ∧
  GetResource type key r = Raise InvalidEnumValue.
Proof.
  intros Hinv. destruct (getResourceType_invalid type Hinv) as [Hname _].
  unfold AddResource_keyed, RemoveResource, RemoveResources, GetResource.
  by rewrite Hname.
Qed.

Hypothesis codec_ascii : ∀ view,
  Forall (λ c, ascii_printable c = true) view →
  CheckValidUTF8ToPdfDocEcondingChars view = (true, true).

(** [AddResource] under a key of the caller: the key is found with the
    object afterwards, whatever it held before; every other lookup finds
    what it found before; the counters are as before. *)
Theorem AddResource_keyed_GetResource (type : PdfResourceType) (key : PdfName)
    (obj : PdfObject) (r : PdfResources) :
  valid_type type →
  ∃ r',
    AddResource_keyed type key obj r = (Ok (), r') ∧
    GetResource type (m_dataView key) r' = Ok (Some obj) ∧
    (∀ type' key', valid_type type' → (type', key') ≠ (type, m_dataView key) →
       GetResource type' key' r' = GetResource type' key' r) ∧
    (∀ k, k ≠ type_name type → dictionary r' !! k = dictionary r !! k) ∧
    m_currResourceIds r' = m_currResourceIds r.
Proof.
  intros Hv. unfold AddResource_keyed, AddResource_named.
  rewrite (valid_type_name type Hv). rewrite valid_type_view by done.
  rewrite (getOrCreateDictionary_spec codec_ascii) by done.
  eexists. split; [reflexivity|]. unfold with_dictionary.
  assert (∀ o, <[type_name type := o]>
                 (dictionary (match tryGetDictionary (type_name type) r with
                              | Some _ => r
                              | None => with_dictionary (type_name type) ∅ r
                              end))
               = <[type_name type := o]> (dictionary r)) as Hdict.
  { intros o. destruct (tryGetDictionary (type_name type) r); [done|].
    cbn [with_dictionary dictionary]. by rewrite insert_insert_eq. }
  rewrite Hdict. split; [|split; [|split]].
  - rewrite GetResource_valid, subdictionary_insert by done. by rewrite lookup_insert_eq.
  - intros type' key' Hv' Hne. rewrite !GetResource_valid by done.
    destruct (decide (type' = type)) as [->|Hty].
    + rewrite subdictionary_insert. rewrite lookup_insert_ne; [done|].
      intros Heq. apply Hne. by rewrite Heq.
    + by rewrite (subdictionary_insert_ne type type' _ _ _ r).
  - intros k Hk. cbn [dictionary]. by rewrite lookup_insert_ne.
  - by destruct (tryGetDictionary (type_name type) r).
Qed.

(** The last write wins: an insertion under a key after another one
    under the same key leaves the table the second one alone would have
    left. *)
Theorem AddResource_keyed_overwrites (type : PdfResourceType) (key : PdfName)
    (obj1 obj2 : PdfObject) (r : PdfResources) :
  valid_type type →
  (AddResource_keyed type key obj2 (AddResource_keyed type key obj1 r).2).2
  = (AddResource_keyed type key obj2 r).2.
Proof.
  intros Hv. unfold AddResource_keyed, AddResource_named.
  rewrite (valid_type_name type Hv). rewrite !valid_type_view by done.
  rewrite !(getOrCreateDictionary_spec codec_ascii) by done. cbn [snd].
  set (r0 := match tryGetDictionary (type_name type) r with
             | Some _ => r
             | None => with_dictionary (type_name type) ∅ r
             end).
  rewrite subdictionary_with_dictionary.
  assert (∀ d, tryGetDictionary (type_name type) (with_dictionary (type_name type) d r0)
               = Some d) as Hget.
  { intros d. unfold tryGetDictionary, with_dictionary. cbn [dictionary].
    by rewrite lookup_insert_eq. }
  rewrite Hget. unfold with_dictionary. cbn [dictionary m_currResourceIds].
  by rewrite !insert_insert_eq.
Qed.

End resource_more.

Section allocation_more.

Context `{CharsetCodec}.

Hypothesis codec_ascii : ∀ view,
  Forall (λ c, ascii_printable c = true) view →
  CheckValidUTF8ToPdfDocEcondingChars view = (true, true).

(** The name [AddResource] returns is found with the object afterwards and
    was not found before; the call adds this one key: every other lookup,
    in this category or another, finds what it found before, and the
    entries of the owning dictionary that are not the category's are as
    they were. *)
Theorem AddResource_GetResource (type : PdfResourceType) (obj : PdfObject)
    (r : PdfResources) :
  counters_wf (m_currResourceIds r) → valid_type type →
  (∃ k, 0 ≤ k < 2 ^ 32 ∧ subdictionary type r !! candidate type k = None) →
  ∃ name r',
    AddResource type obj r = Some (Ok name, r') ∧
    GetResource type (m_dataView name) r = Ok None ∧
    GetResource type (m_dataView name) r' = Ok (Some obj) ∧
    (∀ type' key, valid_type type' → (type', key) ≠ (type, m_dataView name) →
       GetResource type' key r' = GetResource type' key r) ∧
    (∀ k, k ≠ type_name type → dictionary r' !! k = dictionary r !! k).
Proof.
  intros Hwf Hv Hfreek.
  destruct (AddResource_terminates codec_ascii type obj r Hwf Hv Hfreek)
    as (j & Hj & Hrun & Hfree & Hocc).
  cbn zeta in *. eexists _, _. split; [exact Hrun|].
  cbn [ascii_name m_dataView]. split; [|split; [|split]].
  - rewrite GetResource_valid by done. by rewrite Hfree.
  - rewrite GetResource_valid, subdictionary_insert by done. by rewrite lookup_insert_eq.
  - intros type' key Hv' Hne. rewrite !GetResource_valid by done.
    destruct (decide (type' = type)) as [->|Hty].
    + rewrite subdictionary_insert. rewrite lookup_insert_ne; [done|].
      intros Heq. apply Hne. by rewrite Heq.
    + by rewrite (subdictionary_insert_ne type type' _ _ _ r).
  - intros k Hk. cbn [dictionary]. by rewrite lookup_insert_ne.
Qed.

(** While the identifier the counter stands at is free, [AddResource]
    returns it and leaves the counters as they are. *)
Lemma AddResource_at_counter type obj r :
  counters_wf (m_currResourceIds r) → valid_type type →
  subdictionary type r !! candidate type (counter type (m_currResourceIds r)) = None →
  AddResource type obj r
  = Some (Ok (ascii_name (candidate type (counter type (m_currResourceIds r)))),
          {| dictionary :=
               <[type_name type :=
                   ObjDictionary (<[candidate type (counter type (m_currResourceIds r)) := obj]>
                                    (subdictionary type r))]> (dictionary r);
             m_currResourceIds := m_currResourceIds r |}).
Proof.
  intros Hwf Hv Hfree.
  destruct (counter_lookup type _ Hwf Hv) as [Hlk Hrange].
  destruct (AddResource_spec codec_ascii type obj r 0 Hwf Hv) as (j & Hj & Hrun & _).
  { lia. }
  { by rewrite advance_0. }
  assert (j = 0%nat) as -> by lia. cbn zeta in Hrun.
  rewrite advance_0 in Hrun by done. by rewrite list_insert_id in Hrun.
Qed.

(** Removal does not take the counter back, and an allocation does not
    move it past the name it returns: after the category, or just the key,
    has been removed again, the next [AddResource] returns the very name
    the last one returned. *)
Theorem AddResource_reuses_removed_name (type : PdfResourceType) (obj obj' : PdfObject)
    (r : PdfResources) :
  counters_wf (m_currResourceIds r) → valid_type type →
  (∃ k, 0 ≤ k < 2 ^ 32 ∧ subdictionary type r !! candidate type k = None) →
  ∃ name r1 r2 r3,
    AddResource type obj r = Some (Ok name, r1) ∧
    AddResource type obj' (RemoveResources type r1).2 = Some (Ok name, r2) ∧
    AddResource type obj' (RemoveResource type (m_dataView name) r1).2
    = Some (Ok name, r3) ∧
    m_currResourceIds r2 = m_currResourceIds r1 ∧
    m_currResourceIds r3 = m_currResourceIds r1.
Proof.
  intros Hwf Hv Hfreek.
  destruct (AddResource_terminates codec_ascii type obj r Hwf Hv Hfreek)
    as (j & Hj & Hrun & Hfree & Hocc).
  cbn zeta in *.
  set (c := advance (counter type (m_currResourceIds r)) j) in *.
  set (r1 := {| dictionary := _; m_currResourceIds := _ |}) in Hrun.
  assert (counters_wf (m_currResourceIds r1)) as Hwf1.
  { apply counters_wf_insert; [done|apply advance_range]. }
  assert (counter type (m_currResourceIds r1) = c) as Hc1.
  { unfold r1. cbn [m_currResourceIds]. by rewrite counter_insert. }
  set (ra := RemoveResources_named (type_name type) r1).
  set (rb := RemoveResource_named (type_name type) (candidate type c) r1).
  assert (m_currResourceIds ra = m_currResourceIds r1) as Hidsa by done.
  assert (m_currResourceIds rb = m_currResourceIds r1) as Hidsb.
  { unfold rb, RemoveResource_named.
    by destruct (tryGetDictionary (type_name type) r1). }
  assert (subdictionary type ra !! candidate type c = None) as Hfa.
  { unfold ra. by rewrite subdictionary_RemoveResources. }
  assert (subdictionary type rb !! candidate type c = None) as Hfb.
  { unfold rb. by rewrite subdictionary_RemoveResource, lookup_delete_eq. }
  assert (counters_wf (m_currResourceIds ra)) as Hwfa by (by rewrite Hidsa).
  assert (counters_wf (m_currResourceIds rb)) as Hwfb by (by rewrite Hidsb).
  pose proof (AddResource_at_counter type obj' ra Hwfa Hv) as Hruna.
  pose proof (AddResource_at_counter type obj' rb Hwfb Hv) as Hrunb.
  rewrite Hidsa, Hc1 in Hruna. rewrite Hidsb, Hc1 in Hrunb.
  specialize (Hruna Hfa). specialize (Hrunb Hfb).
  eexists _, r1, _, _. split; [exact Hrun|].
  cbn [ascii_name m_dataView].
  rewrite RemoveResources_valid, RemoveResource_valid by done. cbn [snd].
  split; [exact Hruna|]. split; [exact Hrunb|]. done.
Qed.

(** An entry of the category that is not a dictionary is in the way of
    nothing: [AddResource] puts a new dictionary with its one key in its
    place, and the object that was there is gone. *)
Theorem AddResource_replaces_non_dictionary (type : PdfResourceType) (obj o : PdfObject)
    (r : PdfResources) :
  counters_wf (m_currResourceIds r) → valid_type type →
  dictionary r !! type_name type = Some o → (∀ d, o ≠ ObjDictionary d) →
  ∃ r',
    AddResource type obj r
    = Some (Ok (ascii_name (candidate type (counter type (m_currResourceIds r)))), r') ∧
    dictionary r' !! type_name type
    = Some (ObjDictionary
              {[ candidate type (counter type (m_currResourceIds r)) := obj ]}) ∧
    m_currResourceIds r' = m_currResourceIds r.
Proof.
  intros Hwf Hv Ho Hnd.
  assert (subdictionary type r = ∅) as Hsub.
  { unfold subdictionary, tryGetDictionary. rewrite Ho.
    destruct o as [d| | |]; [by destruct (Hnd d)|done..]. }
  rewrite AddResource_at_counter by (by rewrite ?Hsub).
  eexists. split; [reflexivity|]. cbn [dictionary m_currResourceIds].
  rewrite lookup_insert_eq, Hsub. done.
Qed.

End allocation_more.

Lemma allocate_loop_full dict prefix type :
  valid_type type →
  (∀ k, 0 ≤ k < 2 ^ 32 → is_Some (dict !! (prefix ++ to_string k))) →
  ∀ fuel ids, counters_wf ids →
    allocate_loop fuel dict prefix type ids (counter type ids) = None.
Proof.
  intros Hv Hfull fuel. induction fuel as [|fuel IH]; intros ids Hwf.
  - destruct (counter_lookup type ids Hwf Hv) as [_ Hrange].
    simpl. by rewrite bool_decide_true by (by apply Hfull).
  - destruct (counter_lookup type ids Hwf Hv) as [_ Hrange].
    rewrite allocate_loop_collision by (by apply Hfull).
    apply IH. apply counters_wf_insert; [done|]. apply Z.mod_pos_bound. lia.
Qed.

Section allocation_order.

Context `{CharsetCodec}.

Hypothesis codec_ascii : ∀ view,
  Forall (λ c, ascii_printable c = true) view →
  CheckValidUTF8ToPdfDocEcondingChars view = (true, true).

(** [AddResource] fails to return in one case only: when each of the
    [2^32] identifiers of the category is a key of its sub-dictionary. *)
Theorem AddResource_returns_iff (type : PdfResourceType) (obj : PdfObject)
    (r : PdfResources) :
  counters_wf (m_currResourceIds r) → valid_type type →
  AddResource type obj r = None ↔
  ∀ k, 0 ≤ k < 2 ^ 32 → is_Some (subdictionary type r !! candidate type k).
Proof.
  intros Hwf Hv. split; [by apply (AddResource_None codec_ascii)|].
  intros Hfull.
  destruct (getResourceType_valid type Hv) as (Hname & prefix & Hprefix & _ & _ & _ & Hcand).
  unfold AddResource. rewrite Hname, valid_type_view by done.
  rewrite (getOrCreateDictionary_spec codec_ascii) by done. rewrite Hprefix.
  assert (m_currResourceIds
            (match tryGetDictionary (type_name type) r with
             | Some _ => r
             | None => with_dictionary (type_name type) ∅ r
             end) = m_currResourceIds r) as -> by (by case_match).
  rewrite allocate_loop_full; [done|done| |done].
  intros k Hk. rewrite <-Hcand. by apply Hfull.
Qed.

(** One call on a category that holds the identifiers numbered below [k]
    and nothing else, the counter standing at the last of them: the call
    returns the identifier numbered [k]. *)
Lemma AddResource_next type obj r (k : nat) :
  counters_wf (m_currResourceIds r) → valid_type type →
  (∀ key, is_Some (subdictionary type r !! key)
          ↔ ∃ i : nat, (i < k)%nat ∧ key = candidate type (Z.of_nat i)) →
  counter type (m_currResourceIds r) = Z.of_nat (pred k) →
  Z.of_nat k < 2 ^ 32 →
  ∃ r1,
    AddResource type obj r = Some (Ok (ascii_name (candidate type (Z.of_nat k))), r1) ∧
    counters_wf (m_currResourceIds r1) ∧
    counter type (m_currResourceIds r1) = Z.of_nat k ∧
    subdictionary type r1 = <[candidate type (Z.of_nat k) := obj]> (subdictionary type r).
Proof.
  intros Hwf Hv Hkeys Hc Hk.
  assert (subdictionary type r !! candidate type (Z.of_nat k) = None) as Hfree.
  { destruct (subdictionary type r !! candidate type (Z.of_nat k)) as [o|] eqn:Hlk; [|done].
    destruct (proj1 (Hkeys _) (ex_intro _ o Hlk)) as (i & Hi & Heq).
    apply candidate_inj in Heq; [lia|done|lia|lia]. }
  destruct k as [|k].
  - simpl in Hc. rewrite <-Hc in Hfree |- *.
    rewrite (AddResource_at_counter codec_ascii) by done.
    eexists. split; [reflexivity|]. cbn [m_currResourceIds].
    split; [done|]. split; [done|]. apply subdictionary_insert.
  - simpl in Hc.
    assert (advance (Z.of_nat k) 1 = Z.of_nat (S k)) as Hadv.
    { unfold advance. rewrite Z.mod_small by lia. lia. }
    destruct (AddResource_spec codec_ascii type obj r 1 Hwf Hv)
      as (j & Hj & Hrun & Hfree' & _).
    { apply Nat.le_succ_l, Nat.neq_0_lt_0. intros Hsize.
      apply map_size_empty_iff in Hsize.
      assert (is_Some (subdictionary type r !! candidate type (Z.of_nat k))) as [o Ho].
      { apply Hkeys. exists k. split; [lia|done]. }
      by rewrite Hsize, lookup_empty in Ho. }
    { by rewrite Hc, Hadv. }
    rewrite Hc in Hrun, Hfree'.
    destruct j as [|[|j]]; [|clear Hfree'|lia].
    { exfalso. rewrite advance_0 in Hfree' by lia.
      assert (is_Some (subdictionary type r !! candidate type (Z.of_nat k))) as [o Ho].
      { apply Hkeys. exists k. split; [lia|done]. }
      congruence. }
    rewrite Hadv in Hrun. eexists. split; [exact Hrun|]. cbn [m_currResourceIds].
    split; [apply counters_wf_insert; [done|lia]|].
    split; [by apply counter_insert|]. apply subdictionary_insert.
Qed.

Lemma AddResource_calls_from type objs : ∀ (k : nat) r,
  counters_wf (m_currResourceIds r) → valid_type type →
  (∀ key, is_Some (subdictionary type r !! key)
          ↔ ∃ i : nat, (i < k)%nat ∧ key = candidate type (Z.of_nat i)) →
  counter type (m_currResourceIds r) = Z.of_nat (pred k) →
  Z.of_nat (k + length objs) < 2 ^ 32 →
  ∃ calls r',
    AddResource_calls type objs r = Some (calls, r') ∧
    (λ c, m_dataView c.2) <$> calls
    = (λ i : nat, candidate type (Z.of_nat i)) <$> seq k (length objs).
Proof.
  induction objs as [|obj objs IH]; intros k r Hwf Hv Hkeys Hc Hlen.
  - by exists [], r.
  - simpl in Hlen.
    destruct (AddResource_next type obj r k Hwf Hv Hkeys Hc) as (r1 & Hrun & Hwf1 & Hc1 & Hsub1).
    { lia. }
    destruct (IH (S k) r1 Hwf1 Hv) as (calls & r' & Hcalls & Hnames).
    { intros key. rewrite Hsub1. split.
      - intros Hsome. destruct (decide (key = candidate type (Z.of_nat k))) as [->|Hne].
        + exists k. split; [lia|done].
        + rewrite lookup_insert_ne in Hsome by done.
          apply Hkeys in Hsome as (i & Hi & ->). exists i. split; [lia|done].
      - intros (i & Hi & ->). destruct (decide (i = k)) as [->|Hne].
        + by rewrite lookup_insert_eq.
        + rewrite lookup_insert_ne.
          * apply Hkeys. exists i. split; [lia|done].
          * intros Heq. apply candidate_inj in Heq; [lia|done|lia|lia]. }
    { done. }
    { lia. }
    exists ((r, ascii_name (candidate type (Z.of_nat k))) :: calls), r'.
    cbn [AddResource_calls]. rewrite Hrun, Hcalls. cbn [mbind option_bind].
    split; [done|]. rewrite fmap_cons, Hnames. done.
Qed.

(** On a category that is empty with its counter at zero, a sequence of
    calls of [AddResource] returns the identifiers numbered 0, 1, 2 and so
    on, in this order. *)
Theorem AddResource_calls_consecutive (type : PdfResourceType) (objs : list PdfObject)
    (r : PdfResources) :
  counters_wf (m_currResourceIds r) → valid_type type →
  subdictionary type r = ∅ → counter type (m_currResourceIds r) = 0 →
  Z.of_nat (length objs) < 2 ^ 32 →
  ∃ calls r',
    AddResource_calls type objs r = Some (calls, r') ∧
    (λ c, m_dataView c.2) <$> calls
    = (λ i : nat, candidate type (Z.of_nat i)) <$> seq 0 (length objs).
Proof.
  intros Hwf Hv Hempty Hc Hlen.
  apply (AddResource_calls_from type objs 0 r); try done.
  intros key. rewrite Hempty, lookup_empty. split.
  - by intros [??].
  - intros (i & Hi & _). lia.
Qed.

End allocation_order.

Lemma allocate_loop_wf dict prefix type fuel : ∀ ids currId currName ids',
  counters_wf ids →
  allocate_loop fuel dict prefix type ids currId = Some (currName, ids') →
  counters_wf ids'.
Proof.
  induction fuel as [|fuel IH]; intros ids currId currName ids' Hwf; simpl;
    case_bool_decide; try done; try (by intros [= _ <-]).
  apply IH. apply counters_wf_insert; [done|]. apply Z.mod_pos_bound. lia.
Qed.

Section invariant.

Context `{CharsetCodec}.

(** The counters are seven [unsigned] values from the construction on:
    the constructors make them so, and every operation, whatever category
    it is given and however it ends, leaves them so. *)
Theorem counters_wf_invariant (r : PdfResources) :
  counters_wf (m_currResourceIds r) →
  (∀ d, counters_wf (m_currResourceIds (PdfResources_of_object d))) ∧
  counters_wf (m_currResourceIds PdfResources_of_canvas) ∧
  (∀ type obj outcome r',
     AddResource type obj r = Some (outcome, r') → counters_wf (m_currResourceIds r')) ∧
  (∀ type key obj, counters_wf (m_currResourceIds (AddResource_keyed type key obj r).2)) ∧
  (∀ type key, counters_wf (m_currResourceIds (RemoveResource type key r).2)) ∧
  (∀ type, counters_wf (m_currResourceIds (RemoveResources type r).2)).
Proof.
  intros Hwf.
  assert (counters_wf (replicate 7 0)) as Hzero.
  { split; [done|]. apply Forall_replicate. lia. }
  split; [done|]. split; [done|]. split; [|split; [|split]].
  - intros type obj outcome r'. unfold AddResource.
    destruct (getResourceTypeName type) as [tname|e]; [|by intros [= _ <-]].
    pose proof (getOrCreateDictionary_counters (PdfName_string_view tname) r) as Hids.
    destruct (getOrCreateDictionary (PdfName_string_view tname) r) as [[[loc dict]|e] r0];
      cbn [snd] in Hids; [|intros [= _ <-]; by rewrite Hids].
    destruct (getResourceTypePrefix type) as [prefix|e];
      [|intros [= _ <-]; by rewrite Hids].
    destruct (allocate_loop _ _ _ _ _ _) as [[currName ids']|] eqn:Hloop; [|done].
    apply allocate_loop_wf in Hloop; [|by rewrite Hids].
    cbn [mbind option_bind].
    destruct (PdfName_of_string currName); by intros [= _ <-].
  - intros type key obj. unfold AddResource_keyed.
    destruct (getResourceTypeName type); [|done].
    by rewrite AddResource_named_counters.
  - intros type key. unfold RemoveResource, RemoveResource_named.
    destruct (getResourceTypeName type) as [tname|]; [|done]. cbn [snd].
    by destruct (tryGetDictionary (m_dataView tname) r).
  - intros type. unfold RemoveResources. by destruct (getResourceTypeName type).
Qed.

End invariant.

Lemma prefix_letters type prefix :
  getResourceTypePrefix type = Ok prefix → Forall is_letter prefix.
Proof.
  unfold getResourceTypePrefix. repeat case_match; intros [= <-];
    repeat (constructor; [unfold is_letter, byte_val; simpl; lia|]); constructor.
Qed.

Section allocated_names.

Context `{Tokenizer}.

(** Under a tokenizer for which letters and digits are regular and
    printable, as they are in the document syntax, the identifiers the
    table makes are written as they are: their escaped form is the
    identifier itself. *)
Theorem candidate_written_verbatim (type : PdfResourceType) (k : Z) :
  (∀ c, is_letter c ∨ is_digit c → IsRegular c = true ∧ IsPrintable c = true) →
  valid_type type →
  GetEscapedName (ascii_name (candidate type k)) = Some (Ok (), candidate type k) ∧
  ∀ device buffer,
    Write device buffer (ascii_name (candidate type k))
    = Some (Ok (), device ++ "/"%char :: candidate type k, candidate type k).
Proof.
  intros Htok Hv.
  assert (Forall (λ c, is_letter c ∨ is_digit c) (candidate type k)) as Halnum.
  { destruct (getResourceType_valid type Hv) as (_ & prefix & Hprefix & _ & _ & _ & Hcand).
    rewrite Hcand. apply Forall_app. split.
    - eapply Forall_impl; [by apply (prefix_letters type)|]. by left.
    - eapply Forall_impl; [apply to_string_digits|]. by right. }
  assert (candidate type k ≠ []) as Hne.
  { destruct (getResourceType_valid type Hv) as (_ & prefix & _ & _ & _ & _ & Hcand).
    rewrite Hcand. intros Heq. apply app_eq_nil in Heq as [_ Heq].
    by apply to_string_nonempty in Heq. }
  assert (Forall (λ c, verbatim c = true) (candidate type k)) as Hverb.
  { eapply Forall_impl; [exact Halnum|]. intros c Hc.
    destruct (Htok c Hc) as [Hr Hp]. unfold verbatim. rewrite Hr, Hp.
    rewrite bool_decide_false; [done|]. intros ->.
    unfold is_letter, is_digit, byte_val in Hc. simpl in Hc. lia. }
  assert (NUL ∉ candidate type k) as Hnul.
  { intros Hin. apply (proj1 (Forall_forall _ _) Halnum) in Hin.
    unfold is_letter, is_digit, byte_val in Hin. simpl in Hin. lia. }
  assert (∀ dst, escapeNameTo dst (candidate type k) = Some (Ok (), candidate type k))
    as Hesc.
  { intros dst. rewrite escapeNameTo_escaped by done. by rewrite escaped_verbatim. }
  unfold GetEscapedName, Write, device_write. cbn [ascii_name m_dataView].
  rewrite bool_decide_false by (by destruct (candidate type k)).
  rewrite bool_decide_true by (by destruct (candidate type k)).
  rewrite !Hesc. split; [done|]. intros device buffer. rewrite Hesc.
  cbn [mbind option_bind]. by rewrite <-app_assoc.
Qed.

End allocated_names.

(** *** The null name as a category *)

Section null_category.

Context `{CharsetCodec}.

(** The null name is no category of its own: [AddResource] with a
    default-constructed name, which a name made from empty text is as
    well, for the category raises InvalidName where the key of the new
    sub-dictionary would be made from the null view, and the table is left
    as it was.  [getOrCreateDictionary] looks the empty key up first, so
    this is the case of a table without a dictionary under it. *)
Theorem AddResource_named_null (key : PdfName) (obj : PdfObject) (r : PdfResources) :
  tryGetDictionary [] r = None →
  PdfName_of_string [] = Ok PdfName_Null ∧
  AddResource_named PdfName_Null key obj r = (Raise InvalidName, r).
Proof.
  intros Hnone. split; [done|].
  unfold AddResource_named, getOrCreateDictionary.
  cbn [PdfName_string_view PdfName_Null m_data m_dataView from_option id].
  by rewrite Hnone.
Qed.

End null_category.

(** ** The properties on concrete inputs *)

Lemma Latin_encode_ascii view :
  Forall (λ c, ascii_printable c = true) view → Latin_encode view = Some view.
Proof.
  induction 1 as [|c view Hc _ IH]; [done|].
  simpl. by rewrite Hc, IH.
Qed.

Lemma Latin_Check_ascii view :
  Forall (λ c, ascii_printable c = true) view → Latin_Check view = (true, true).
Proof.
  intros Hascii. unfold Latin_Check. rewrite Latin_encode_ascii by done.
  f_equal. apply forallb_forall. intros c Hc. apply list_elem_of_In in Hc.
  by apply (proj1 (Forall_forall _ _) Hascii).
Qed.

#[local] Existing Instance pdf_tokenizer.
#[local] Existing Instance Latin_codec.

(** The round trip on "A B#". *)
Lemma escape_unescape_roundtrip_witness :
  (NUL ∉ sv "A B#") ∧
  ∃ lexical,
    escapeNameTo [] (sv "A B#") = Some (Ok (), lexical) ∧
    unescapeName lexical = Some (sv "A B#").
Proof.
  assert (NUL ∉ sv "A B#") as Hnul by (by apply (bool_decide_unpack _)).
  split; [exact Hnul|]. exact (escape_unescape_roundtrip [] (sv "A B#") Hnul).
Defined.

(** The escaped form of "A B#" under the tokenizer of the document syntax. *)
Example escape_example :
  escapeNameTo (sv "old") (sv "A B#") = Some (Ok (), sv "A#20B#23").
Proof. by vm_compute. Qed.

(** The rejection of a null byte on "a", 0x00, "b". *)
Lemma escape_null_rejected_witness :
  NUL ∈ null_view ∧
  escape_scan null_view 0 = Raise InvalidName ∧
  escapeNameTo (sv "old") null_view = Some (Raise InvalidName, sv "old") ∧
  ∀ view', NUL ∉ view' →
    ∃ out, escape_scan view' 0 = Ok (length out) ∧
           escapeNameTo (sv "old") view' = Some (Ok (), out).
Proof.
  assert (NUL ∈ null_view) as Hnul by (by apply (bool_decide_unpack _)).
  split; [exact Hnul|]. exact (escape_null_rejected (sv "old") null_view Hnul).
Defined.



(** A name made from the raw byte and the name made from the text. *)
Lemma name_compare_raw_bytes_witness :
  PdfName_of_string e_acute = Ok e_acute_name ∧
  (m_data (FromRaw ["233"]%char) ≫= Utf8String) = None ∧
  (m_data e_acute_name ≫= Utf8String) = Some e_acute ∧
  m_dataView (FromRaw ["233"]%char) = m_dataView e_acute_name ∧
  PdfName_eq (FromRaw ["233"]%char) e_acute_name = true ∧
  PdfName_ne (FromRaw ["233"]%char) e_acute_name = false ∧
  PdfName_lt (FromRaw ["233"]%char) e_acute_name = false ∧
  PdfName_lt e_acute_name (FromRaw ["233"]%char) = false ∧
  (∀ x y, PdfName_eq x y = true ↔ m_dataView x = m_dataView y) ∧
  (∀ x y, PdfName_lt x y = true ↔ bytewise_lt (m_dataView x) (m_dataView y)).
Proof.
  split; [reflexivity|]. split; [reflexivity|]. split; [reflexivity|].
  split; [reflexivity|].
  exact (name_compare_raw_bytes (FromRaw ["233"]%char) e_acute_name eq_refl).
Defined.

(** The name of the text of U+00E9 against the text and against its raw
    byte, and the name made from that byte, which the comparison expands. *)
Lemma name_eq_view_text_witness :
  PdfName_of_string e_acute = Ok e_acute_name ∧
  m_dataView e_acute_name ≠ e_acute ∧
  ConvertPdfDocEncodingToUTF8 ["233"]%char = (e_acute, false) ∧
  PdfName_eq_view e_acute_name e_acute = true ∧
  PdfName_eq_view e_acute_name ["233"]%char = false ∧
  PdfName_eq_view (FromRaw ["233"]%char) e_acute = true ∧
  PdfName_eq_view (FromRaw ["233"]%char) ["233"]%char = false ∧
  GetString (FromRaw ["233"]%char) = (e_acute, e_acute_name) ∧
  (PdfName_eq_view (FromRaw (sv "Font")) (sv "Font") = true
   ↔ sv "Font" = sv "Font").
Proof.
  assert (m_dataView e_acute_name ≠ e_acute) as Hne by discriminate.
  destruct (@name_eq_view_text Latin_codec e_acute e_acute_name eq_refl Hne)
    as (Htext & Hraw & Hlazy & Hshown & Hback & _).
  destruct (Hlazy ["233"]%char e_acute eq_refl) as (Heq & Hneq & Hget & _).
  split; [reflexivity|]. split; [exact Hne|]. split; [reflexivity|].
  split; [exact Htext|]. split; [exact Hraw|]. split; [exact Heq|].
  split; [apply Hneq; discriminate|]. split; [exact Hget|].
  exact (Hshown (sv "Font") (sv "Font") true (sv "Font") eq_refl).
Defined.

(** A name made from raw bytes is expanded by [GetString] on the first
    comparison with text. *)
Example name_from_raw_eq_text :
  PdfName_eq_view (FromRaw ["233"]%char) e_acute = true ∧
  m_data (GetString (FromRaw ["233"]%char)).2
  = Some {| Chars := ["233"]%char; Utf8String := Some e_acute; IsUtf8Expanded := true |}.
Proof. by vm_compute. Qed.

Lemma Ft3_table_Ft4_free :
  ∃ k, 0 ≤ k < 2 ^ 32 ∧ subdictionary Font Ft3_table !! candidate Font k = None.
Proof. exists 4. split; [lia|reflexivity]. Defined.

Lemma valid_type_Font : valid_type Font.
Proof. unfold valid_type. apply (bool_decide_unpack _). exact I. Defined.

Lemma valid_type_XObject : valid_type XObject.
Proof. unfold valid_type. apply (bool_decide_unpack _). exact I. Defined.

Lemma counters_wf_Ft3_table : counters_wf (m_currResourceIds Ft3_table).
Proof. split; [reflexivity|]. repeat constructor; done. Defined.

(** "Ft3" put in by hand, the Font counter at 3: the call returns "Ft4". *)
Example AddResource_Ft3_example :
  ∃ r',
    AddResource Font (ObjReference 2) Ft3_table = Some (Ok (ascii_name (sv "Ft4")), r') ∧
    counter Font (m_currResourceIds r') = 4.
Proof. vm_compute. eexists. split; reflexivity. Qed.

(** The allocation on the table with "Ft3" put in by hand. *)
Lemma AddResource_fresh_witness :
  counters_wf (m_currResourceIds Ft3_table) ∧ valid_type Font ∧
  (∃ k, 0 ≤ k < 2 ^ 32 ∧ subdictionary Font Ft3_table !! candidate Font k = None) ∧
  ∃ name r',
    AddResource Font (ObjReference 2) Ft3_table = Some (Ok name, r') ∧
    subdictionary Font Ft3_table !! m_dataView name = None ∧
    m_dataView name ≠ sv "Ft3" ∧
    ∃ k, 4 ≤ k ∧ m_dataView name = sv "Ft" ++ to_string k.
Proof.
  split; [exact counters_wf_Ft3_table|]. split; [exact valid_type_Font|].
  split; [exact Ft3_table_Ft4_free|].
  destruct (@AddResource_fresh Latin_codec Latin_Check_ascii Font (ObjReference 2)
              Ft3_table counters_wf_Ft3_table valid_type_Font Ft3_table_Ft4_free)
    as (name & r' & j & Hrun & Hfresh & _ & _ & _ & _ & _ & HFt3).
  destruct (HFt3 eq_refl eq_refl) as (Hne & _ & Hlater).
  { exists (ObjReference 1). reflexivity. }
  exists name, r'. split; [exact Hrun|]. split; [exact Hfresh|]. split; [exact Hne|].
  apply Hlater. reflexivity.
Defined.

Lemma counters_wf_initial : counters_wf (m_currResourceIds (PdfResources_of_object ∅)).
Proof. split; [reflexivity|]. repeat constructor; done. Defined.

(** Two allocations on a table made for an empty dictionary. *)
Lemma AddResource_XObject_twice_witness :
  counters_wf (m_currResourceIds (PdfResources_of_object ∅)) ∧
  counter XObject (m_currResourceIds (PdfResources_of_object ∅)) = 0 ∧
  subdictionary XObject (PdfResources_of_object ∅) = ∅ ∧
  ∃ r1 r2,
    AddResource XObject (ObjReference 1) (PdfResources_of_object ∅)
    = Some (Ok (ascii_name (sv "XOb0")), r1) ∧
    AddResource XObject (ObjReference 2) r1 = Some (Ok (ascii_name (sv "XOb1")), r2) ∧
    subdictionary XObject r2
    = <[sv "XOb1" := ObjReference 2]> (<[sv "XOb0" := ObjReference 1]> ∅).
Proof.
  split; [exact counters_wf_initial|]. split; [reflexivity|]. split; [reflexivity|].
  exact (@AddResource_XObject_twice Latin_codec Latin_Check_ascii
           (ObjReference 1) (ObjReference 2) (PdfResources_of_object ∅)
           counters_wf_initial eq_refl eq_refl).
Defined.

(** The value 0 is none of the enumerators. *)
Lemma resource_type_outside_enumeration_witness :
  getResourceTypeName 0 = Raise InvalidEnumValue ∧
  getResourceTypePrefix 0 = Raise InvalidEnumValue.
Proof.
  apply (resource_type_outside_enumeration 0); discriminate.
Defined.

Lemma invalid_type_8 : ¬ valid_type 8.
Proof.
  intros Hv. apply valid_type_cases in Hv.
  destruct Hv as [Hv|[Hv|[Hv|[Hv|[Hv|[Hv|Hv]]]]]]; discriminate Hv.
Defined.

(** The value 8 is none of the enumerators: the table stays as it is. *)
Lemma AddResource_invalid_type_witness :
  ¬ valid_type 8 ∧
  AddResource 8 (ObjReference 2) Ft3_table = Some (Raise InvalidEnumValue, Ft3_table).
Proof.
  split; [exact invalid_type_8|].
  exact (@AddResource_invalid_type Latin_codec 8 (ObjReference 2) Ft3_table invalid_type_8).
Defined.



(** Three allocations in a row on the table with "Ft3" put in by hand. *)
Example AddResource_calls_example :
  ∃ calls r',
    AddResource_calls Font [ObjReference 2; ObjReference 3; ObjReference 4] Ft3_table
    = Some (calls, r') ∧
    (λ c, m_dataView c.2) <$> calls = [sv "Ft4"; sv "Ft5"; sv "Ft6"] ∧
    counter Font (m_currResourceIds r') = 6.
Proof. vm_compute. eexists _, _. split; [reflexivity|]. split; reflexivity. Qed.

(** ** The further properties on concrete inputs *)

Lemma no_null_A_B_hash : NUL ∉ sv "A B#".
Proof. apply (bool_decide_unpack _). exact I. Defined.

(** "Name" has no [#] in it. *)
Lemma unescapeName_no_hash_witness :
  (HASH ∉ sv "Name") ∧ unescapeName (sv "Name") = Some (sv "Name").
Proof.
  assert (HASH ∉ sv "Name") as Hno by (apply (bool_decide_unpack _); exact I).
  split; [exact Hno|]. exact (unescapeName_no_hash (sv "Name") Hno).
Defined.

(** "#2f" is the solidus, as "#2F" is. *)
Lemma unescapeName_hex_either_case_witness :
  0 ≤ 2 < 16 ∧ 0 ≤ 15 < 16 ∧
  ("2"%char = hexdigit 2 ∨ "2"%char = hexdigit_lower 2) ∧
  ("f"%char = hexdigit 15 ∨ "f"%char = hexdigit_lower 15) ∧
  unescapeName (sv "#2fx") = (to_uchar (16 * 2 + 15) ::.) <$> unescapeName (sv "x").
Proof.
  assert (0 ≤ 2 < 16) as H2 by lia. assert (0 ≤ 15 < 16) as H15 by lia.
  split; [exact H2|]. split; [exact H15|].
  split; [left; reflexivity|]. split; [right; reflexivity|].
  exact (unescapeName_hex_either_case 2 15 "2" "f" (sv "x") H2 H15
           (or_introl eq_refl) (or_intror eq_refl)).
Defined.

(** The length of the escaped form of "A B#": two of four bytes are
    escaped. *)
Lemma escapeNameTo_length_witness :
  (NUL ∉ sv "A B#") ∧
  ∃ out, escapeNameTo (sv "old") (sv "A B#") = Some (Ok (), out) ∧
    length out
    = (length (sv "A B#") + 2 * length (filter (λ c, needs_escape c) (sv "A B#")))%nat ∧
    (length (sv "A B#") ≤ length out)%nat ∧ (length out ≤ 3 * length (sv "A B#"))%nat.
Proof.
  split; [exact no_null_A_B_hash|].
  exact (escapeNameTo_length (sv "old") (sv "A B#") no_null_A_B_hash).
Defined.

Lemma escapeNameTo_overwrites_witness :
  (NUL ∉ sv "A B#") ∧
  escapeNameTo (sv "a longer old content") (sv "A B#") = escapeNameTo [] (sv "A B#").
Proof.
  split; [exact no_null_A_B_hash|].
  exact (escapeNameTo_overwrites (sv "a longer old content") [] (sv "A B#")
           no_null_A_B_hash).
Defined.

Lemma escapeNameTo_identity_witness :
  (NUL ∉ sv "A B#") ∧
  (escapeNameTo [] (sv "A B#") = Some (Ok (), sv "A B#")
   ↔ Forall (λ c, verbatim c = true) (sv "A B#")).
Proof.
  split; [exact no_null_A_B_hash|].
  exact (escapeNameTo_identity [] (sv "A B#") no_null_A_B_hash).
Defined.

Lemma escapeNameTo_alphabet_witness :
  escapeNameTo [] (sv "A B#") = Some (Ok (), sv "A#20B#23") ∧
  Forall (λ c, verbatim c = true ∨ c = HASH ∨ c ∈ hexdigits) (sv "A#20B#23").
Proof.
  split; [reflexivity|].
  exact (escapeNameTo_alphabet [] (sv "A B#") (sv "A#20B#23") eq_refl).
Defined.

Lemma escapeNameTo_inj_witness :
  escapeNameTo [] (sv "A B#") = Some (Ok (), sv "A#20B#23") ∧
  escapeNameTo (sv "old") (sv "A B#") = Some (Ok (), sv "A#20B#23") ∧
  sv "A B#" = sv "A B#".
Proof.
  split; [reflexivity|]. split; [reflexivity|].
  exact (escapeNameTo_inj [] (sv "old") (sv "A B#") (sv "A B#") (sv "A#20B#23")
           eq_refl eq_refl).
Defined.

Lemma no_null_e_acute_name : NUL ∉ m_dataView e_acute_name.
Proof. apply (bool_decide_unpack _). exact I. Defined.

(** The name of U+00E9 goes out as "#E9" and comes back. *)
Lemma FromEscaped_GetEscapedName_eq_witness :
  (NUL ∉ m_dataView e_acute_name) ∧
  ∃ lexical n',
    GetEscapedName e_acute_name = Some (Ok (), lexical) ∧
    FromEscaped lexical = Some n' ∧
    PdfName_eq n' e_acute_name = true ∧
    m_data n' = Some {| Chars := m_dataView e_acute_name; Utf8String := None;
                        IsUtf8Expanded := false |}.
Proof.
  split; [exact no_null_e_acute_name|].
  exact (FromEscaped_GetEscapedName_eq e_acute_name no_null_e_acute_name).
Defined.

Lemma Write_escaped_witness :
  (NUL ∉ m_dataView e_acute_name) ∧
  ∃ lexical,
    GetEscapedName e_acute_name = Some (Ok (), lexical) ∧
    Write (sv "<<") (sv "old") e_acute_name
    = Some (Ok (), sv "<<" ++ "/"%char :: lexical,
            if IsNull e_acute_name then sv "old" else lexical) ∧
    unescapeName lexical = Some (m_dataView e_acute_name).
Proof.
  split; [exact no_null_e_acute_name|].
  exact (Write_escaped (sv "<<") (sv "old") e_acute_name no_null_e_acute_name).
Defined.

(** What is written for the name of U+00E9. *)
Example Write_example :
  Write (sv "<<") (sv "old") e_acute_name = Some (Ok (), sv "<</#E9", sv "#E9").
Proof. reflexivity. Qed.

(** "A#00" is read, and the name read cannot be written. *)
Lemma FromEscaped_null_unwritable_witness :
  unescapeName (sv "A#00") = Some ["A"%char; NUL] ∧ NUL ∈ ["A"%char; NUL] ∧
  ∃ n,
    FromEscaped (sv "A#00") = Some n ∧ m_dataView n = ["A"%char; NUL] ∧
    GetEscapedName n = Some (Raise InvalidName, []) ∧
    Write (sv "<<") (sv "old") n = Some (Raise InvalidName, sv "<<" ++ ["/"%char], sv "old").
Proof.
  assert (NUL ∈ ["A"%char; NUL]) as Hnul by (apply (bool_decide_unpack _); exact I).
  split; [reflexivity|]. split; [exact Hnul|].
  exact (FromEscaped_null_unwritable (sv "A#00") ["A"%char; NUL] (sv "<<") (sv "old")
           eq_refl Hnul).
Defined.

Lemma GetString_of_string_witness :
  PdfName_of_string e_acute = Ok e_acute_name ∧
  GetString e_acute_name = (e_acute, e_acute_name).
Proof.
  split; [reflexivity|]. exact (GetString_of_string e_acute e_acute_name eq_refl).
Defined.

(** A table made for an empty dictionary has no Font category. *)
Lemma GetResource_missing_category_witness :
  valid_type Font ∧
  tryGetDictionary (type_name Font) (PdfResources_of_object ∅) = None ∧
  GetResource Font (sv "F1") (PdfResources_of_object ∅) = Ok None.
Proof.
  split; [exact valid_type_Font|]. split; [reflexivity|].
  exact (GetResource_missing_category Font (sv "F1") (PdfResources_of_object ∅)
           valid_type_Font eq_refl).
Defined.

(** "Ft3" removed from the table it was put in by hand. *)
Lemma RemoveResource_GetResource_witness :
  valid_type Font ∧
  ∃ r',
    RemoveResource Font (sv "Ft3") Ft3_table = (Ok (), r') ∧
    GetResource Font (sv "Ft3") Ft3_table = Ok (Some (ObjReference 1)) ∧
    GetResource Font (sv "Ft3") r' = Ok None ∧
    m_currResourceIds r' = m_currResourceIds Ft3_table.
Proof.
  split; [exact valid_type_Font|].
  destruct (RemoveResource_GetResource Font (sv "Ft3") Ft3_table valid_type_Font)
    as (r' & Hrun & Hgone & _ & _ & Hids & _).
  exists r'. split; [exact Hrun|]. split; [reflexivity|]. split; [exact Hgone|exact Hids].
Defined.

Lemma RemoveResources_GetResource_witness :
  valid_type Font ∧
  ∃ r',
    RemoveResources Font Ft3_table = (Ok (), r') ∧
    dictionary r' !! type_name Font = None ∧
    GetResource Font (sv "Ft3") r' = Ok None ∧
    m_currResourceIds r' = m_currResourceIds Ft3_table.
Proof.
  split; [exact valid_type_Font|].
  destruct (RemoveResources_GetResource Font Ft3_table valid_type_Font)
    as (r' & Hrun & Hentry & Hgone & _ & _ & Hids).
  exists r'. split; [exact Hrun|]. split; [exact Hentry|].
  split; [exact (Hgone (sv "Ft3"))|exact Hids].
Defined.

Lemma invalid_type_operations_witness :
  ¬ valid_type 8 ∧
  AddResource_keyed 8 PdfName_Null (ObjReference 2) Ft3_table
  = (Raise InvalidEnumValue, Ft3_table) ∧
  RemoveResource 8 (sv "Ft3") Ft3_table = (Raise InvalidEnumValue, Ft3_table) ∧
  RemoveResources 8 Ft3_table = (Raise InvalidEnumValue, Ft3_table) ∧
  GetResource 8 (sv "Ft3") Ft3_table = Raise InvalidEnumValue.
Proof.
  split; [exact invalid_type_8|].
  exact (@invalid_type_operations Latin_codec 8 (sv "Ft3") PdfName_Null (ObjReference 2)
           Ft3_table invalid_type_8).
Defined.

(** "Ft3" overwritten by an insertion under that key. *)
Lemma AddResource_keyed_GetResource_witness :
  valid_type Font ∧
  ∃ r',
    AddResource_keyed Font (ascii_name (sv "Ft3")) (ObjReference 2) Ft3_table = (Ok (), r') ∧
    GetResource Font (sv "Ft3") Ft3_table = Ok (Some (ObjReference 1)) ∧
    GetResource Font (sv "Ft3") r' = Ok (Some (ObjReference 2)) ∧
    m_currResourceIds r' = m_currResourceIds Ft3_table.
Proof.
  split; [exact valid_type_Font|].
  destruct (@AddResource_keyed_GetResource Latin_codec Latin_Check_ascii Font
              (ascii_name (sv "Ft3")) (ObjReference 2) Ft3_table valid_type_Font)
    as (r' & Hrun & Hfound & _ & _ & Hids).
  exists r'. split; [exact Hrun|]. split; [reflexivity|]. split; [exact Hfound|exact Hids].
Defined.

Lemma AddResource_keyed_overwrites_witness :
  valid_type Font ∧
  (AddResource_keyed Font (ascii_name (sv "F1")) (ObjReference 3)
     (AddResource_keyed Font (ascii_name (sv "F1")) (ObjReference 2) Ft3_table).2).2
  = (AddResource_keyed Font (ascii_name (sv "F1")) (ObjReference 3) Ft3_table).2.
Proof.
  split; [exact valid_type_Font|].
  exact (@AddResource_keyed_overwrites Latin_codec Latin_Check_ascii Font
           (ascii_name (sv "F1")) (ObjReference 2) (ObjReference 3) Ft3_table
           valid_type_Font).
Defined.

(** The name allocated on the table with "Ft3" is found afterwards, and
    "Ft3" is found as before. *)
Lemma AddResource_GetResource_witness :
  counters_wf (m_currResourceIds Ft3_table) ∧ valid_type Font ∧
  (∃ k, 0 ≤ k < 2 ^ 32 ∧ subdictionary Font Ft3_table !! candidate Font k = None) ∧
  ∃ name r',
    AddResource Font (ObjReference 2) Ft3_table = Some (Ok name, r') ∧
    GetResource Font (m_dataView name) Ft3_table = Ok None ∧
    GetResource Font (m_dataView name) r' = Ok (Some (ObjReference 2)) ∧
    (m_dataView name ≠ sv "Ft3" →
       GetResource Font (sv "Ft3") r' = GetResource Font (sv "Ft3") Ft3_table).
Proof.
  split; [exact counters_wf_Ft3_table|]. split; [exact valid_type_Font|].
  split; [exact Ft3_table_Ft4_free|].
  destruct (@AddResource_GetResource Latin_codec Latin_Check_ascii Font (ObjReference 2)
              Ft3_table counters_wf_Ft3_table valid_type_Font Ft3_table_Ft4_free)
    as (name & r' & Hrun & Hbefore & Hafter & Hframe & _).
  exists name, r'. split; [exact Hrun|]. split; [exact Hbefore|]. split; [exact Hafter|].
  intros Hne. apply (Hframe Font (sv "Ft3") valid_type_Font).
  intros Heq. apply Hne. symmetry. exact (f_equal snd Heq).
Defined.

Lemma AddResource_reuses_removed_name_witness :
  counters_wf (m_currResourceIds Ft3_table) ∧ valid_type Font ∧
  (∃ k, 0 ≤ k < 2 ^ 32 ∧ subdictionary Font Ft3_table !! candidate Font k = None) ∧
  ∃ name r1 r2 r3,
    AddResource Font (ObjReference 2) Ft3_table = Some (Ok name, r1) ∧
    AddResource Font (ObjReference 3) (RemoveResources Font r1).2 = Some (Ok name, r2) ∧
    AddResource Font (ObjReference 3) (RemoveResource Font (m_dataView name) r1).2
    = Some (Ok name, r3) ∧
    m_currResourceIds r2 = m_currResourceIds r1 ∧
    m_currResourceIds r3 = m_currResourceIds r1.
Proof.
  split; [exact counters_wf_Ft3_table|]. split; [exact valid_type_Font|].
  split; [exact Ft3_table_Ft4_free|].
  exact (@AddResource_reuses_removed_name Latin_codec Latin_Check_ascii Font
           (ObjReference 2) (ObjReference 3) Ft3_table counters_wf_Ft3_table
           valid_type_Font Ft3_table_Ft4_free).
Defined.

Lemma counters_wf_stray_table : counters_wf (m_currResourceIds stray_table).
Proof. split; [reflexivity|]. repeat constructor; done. Defined.

(** The name under Font gives way to a dictionary with "Ft0". *)
Lemma AddResource_replaces_non_dictionary_witness :
  counters_wf (m_currResourceIds stray_table) ∧ valid_type Font ∧
  dictionary stray_table !! type_name Font = Some (ObjName (sv "Helvetica")) ∧
  (∀ d, ObjName (sv "Helvetica") ≠ ObjDictionary d) ∧
  ∃ r',
    AddResource Font (ObjReference 2) stray_table
    = Some (Ok (ascii_name (candidate Font (counter Font (m_currResourceIds stray_table)))),
            r') ∧
    dictionary r' !! type_name Font
    = Some (ObjDictionary
              {[ candidate Font (counter Font (m_currResourceIds stray_table))
                 := ObjReference 2 ]}) ∧
    m_currResourceIds r' = m_currResourceIds stray_table.
Proof.
  assert (∀ d, ObjName (sv "Helvetica") ≠ ObjDictionary d) as Hnd by discriminate.
  split; [exact counters_wf_stray_table|]. split; [exact valid_type_Font|].
  split; [reflexivity|]. split; [exact Hnd|].
  exact (@AddResource_replaces_non_dictionary Latin_codec Latin_Check_ascii Font
           (ObjReference 2) (ObjName (sv "Helvetica")) stray_table
           counters_wf_stray_table valid_type_Font eq_refl Hnd).
Defined.

Lemma AddResource_returns_iff_witness :
  counters_wf (m_currResourceIds Ft3_table) ∧ valid_type Font ∧
  (AddResource Font (ObjReference 2) Ft3_table = None ↔
   ∀ k, 0 ≤ k < 2 ^ 32 → is_Some (subdictionary Font Ft3_table !! candidate Font k)).
Proof.
  split; [exact counters_wf_Ft3_table|]. split; [exact valid_type_Font|].
  exact (@AddResource_returns_iff Latin_codec Latin_Check_ascii Font (ObjReference 2)
           Ft3_table counters_wf_Ft3_table valid_type_Font).
Defined.

(** Three allocations on a table made for an empty dictionary. *)
Lemma AddResource_calls_consecutive_witness :
  counters_wf (m_currResourceIds (PdfResources_of_object ∅)) ∧ valid_type XObject ∧
  subdictionary XObject (PdfResources_of_object ∅) = ∅ ∧
  counter XObject (m_currResourceIds (PdfResources_of_object ∅)) = 0 ∧
  Z.of_nat (length [ObjReference 1; ObjReference 2; ObjReference 3]) < 2 ^ 32 ∧
  ∃ calls r',
    AddResource_calls XObject [ObjReference 1; ObjReference 2; ObjReference 3]
      (PdfResources_of_object ∅) = Some (calls, r') ∧
    (λ c, m_dataView c.2) <$> calls
    = (λ i : nat, candidate XObject (Z.of_nat i))
        <$> seq 0 (length [ObjReference 1; ObjReference 2; ObjReference 3]).
Proof.
  assert (Z.of_nat (length [ObjReference 1; ObjReference 2; ObjReference 3]) < 2 ^ 32)
    as Hlen by reflexivity.
  split; [exact counters_wf_initial|]. split; [exact valid_type_XObject|].
  split; [reflexivity|]. split; [reflexivity|]. split; [exact Hlen|].
  exact (@AddResource_calls_consecutive Latin_codec Latin_Check_ascii XObject
           [ObjReference 1; ObjReference 2; ObjReference 3] (PdfResources_of_object ∅)
           counters_wf_initial valid_type_XObject eq_refl eq_refl Hlen).
Defined.

(** Three allocations on the table with "Ft3" put in by hand. *)
Lemma AddResource_calls_fresh_witness :
  counters_wf (m_currResourceIds Ft3_table) ∧ valid_type Font ∧
  Z.of_nat (size (subdictionary Font Ft3_table)
            + length [ObjReference 2; ObjReference 3; ObjReference 4]) < 2 ^ 32 ∧
  ∃ calls r',
    AddResource_calls Font [ObjReference 2; ObjReference 3; ObjReference 4] Ft3_table
    = Some (calls, r') ∧
    length calls = 3%nat ∧
    (∀ r0 name, (r0, name) ∈ calls →
       subdictionary Font r0 !! m_dataView name = None ∧
       m_dataView name ∉ dom (subdictionary Font Ft3_table)) ∧
    NoDup ((λ c, m_dataView c.2) <$> calls).
Proof.
  assert (Z.of_nat (size (subdictionary Font Ft3_table)
                    + length [ObjReference 2; ObjReference 3; ObjReference 4]) < 2 ^ 32)
    as Hsize by reflexivity.
  split; [exact counters_wf_Ft3_table|]. split; [exact valid_type_Font|].
  split; [exact Hsize|].
  destruct (@AddResource_calls_fresh Latin_codec Latin_Check_ascii Font
              [ObjReference 2; ObjReference 3; ObjReference 4] Ft3_table
              counters_wf_Ft3_table valid_type_Font Hsize)
    as (calls & r' & Hrun & Hlen & _ & Hall & Hnd).
  exists calls, r'. split; [exact Hrun|]. split; [exact Hlen|]. split; [|exact Hnd].
  intros r0 name Hin. destruct (Hall r0 name Hin) as (Hfresh & Hdom & _).
  split; [exact Hfresh|]. intros Hold. apply Hdom in Hold.
  apply elem_of_dom in Hold as [o Ho]. rewrite Hfresh in Ho. discriminate Ho.
Defined.

Lemma counters_wf_invariant_witness :
  counters_wf (m_currResourceIds Ft3_table) ∧
  (∀ type obj outcome r',
     AddResource type obj Ft3_table = Some (outcome, r') →
     counters_wf (m_currResourceIds r')) ∧
  (∀ type key, counters_wf (m_currResourceIds (RemoveResource type key Ft3_table).2)).
Proof.
  split; [exact counters_wf_Ft3_table|].
  destruct (@counters_wf_invariant Latin_codec Ft3_table counters_wf_Ft3_table)
    as (_ & _ & Hadd & _ & Hrem & _).
  split; [exact Hadd|exact Hrem].
Defined.

Lemma pdf_tokenizer_alnum c :
  is_letter c ∨ is_digit c → IsRegular c = true ∧ IsPrintable c = true.
Proof.
  intros Hc. destruct c as [[] [] [] [] [] [] [] []];
    first [ split; reflexivity
          | exfalso; unfold is_letter, is_digit, byte_val in Hc; simpl in Hc; lia ].
Qed.

(** "XOb12" is written as "/XOb12". *)
Lemma candidate_written_verbatim_witness :
  (∀ c, is_letter c ∨ is_digit c → IsRegular c = true ∧ IsPrintable c = true) ∧
  valid_type XObject ∧
  GetEscapedName (ascii_name (candidate XObject 12)) = Some (Ok (), candidate XObject 12) ∧
  ∀ device buffer,
    Write device buffer (ascii_name (candidate XObject 12))
    = Some (Ok (), device ++ "/"%char :: candidate XObject 12, candidate XObject 12).
Proof.
  split; [exact pdf_tokenizer_alnum|]. split; [exact valid_type_XObject|].
  exact (@candidate_written_verbatim pdf_tokenizer XObject 12 pdf_tokenizer_alnum
           valid_type_XObject).
Defined.

(** The null name for the category, on the table with the Font category. *)
Lemma AddResource_named_null_witness :
  tryGetDictionary [] Ft3_table = None ∧
  PdfName_of_string [] = Ok PdfName_Null ∧
  AddResource_named PdfName_Null (ascii_name (sv "F1")) (ObjReference 1) Ft3_table
  = (Raise InvalidName, Ft3_table).
Proof.
  split; [reflexivity|].
  exact (@AddResource_named_null Latin_codec (ascii_name (sv "F1")) (ObjReference 1)
           Ft3_table eq_refl).
Defined.
